(** * assets-creator: the stdio tool server of [src/main.js]

    A shallow embedding of [LocalMCPServer] (request dispatch, the four tool
    handlers and the path confinement of [resolvePath]) together with the
    parts of the Node.js runtime the server calls: the POSIX [path] module,
    the [fs/promises] operations and the generate capability. *)

From Stdlib Require Import ZArith Ascii.
From stdpp Require Import base option list strings gmap sorting pretty.

Local Open Scope Z_scope.

(** ** POSIX [path] module

    The server runs [path.resolve], [path.relative], [path.dirname] and
    [path.isAbsolute] on strings.  Node scans the characters of a path and
    cuts it at every ["/"]; here the cut is [split_slash] and the scan works
    on the resulting components. *)
Module Path.

Definition slash : ascii := "/"%char.

(** [s.split("/")]. *)
Fixpoint split_slash (s : string) : list string :=
  match s with
  | EmptyString => [EmptyString]
  | String c s' =>
      if Ascii.eqb c slash then EmptyString :: split_slash s'
      else match split_slash s' with
           | [] => [String c EmptyString]
           | h :: t => String c h :: t
           end
  end.

(** [parts.join("/")]. *)
Definition join_slash (parts : list string) : string := String.concat "/" parts.

(** [s.startsWith(p)]. *)
Fixpoint startsWith (p s : string) : bool :=
  match p with
  | EmptyString => true
  | String a p' =>
      match s with
      | EmptyString => false
      | String b s' => Ascii.eqb a b && startsWith p' s'
      end
  end.

(** [normalizeString(path, allowAboveRoot, "/")]: ["."] and empty
    components are dropped, [".."] removes the last kept component; when
    nothing is left to remove (or the last kept one is itself [".."]) it is
    kept only if [allowAboveRoot].  [kept] is the result so far, last
    component first. *)
Fixpoint normalize_go (allowAboveRoot : bool) (kept parts : list string) : list string :=
  match parts with
  | [] => rev kept
  | p :: rest =>
      if bool_decide (p = "" ∨ p = ".") then normalize_go allowAboveRoot kept rest
      else if bool_decide (p = "..") then
        match kept with
        | top :: below =>
            if bool_decide (top = "..")
            then normalize_go allowAboveRoot (if allowAboveRoot then p :: kept else kept) rest
            else normalize_go allowAboveRoot below rest
        | [] => normalize_go allowAboveRoot (if allowAboveRoot then [p] else []) rest
        end
      else normalize_go allowAboveRoot (p :: kept) rest
  end.

Definition normalizeString (path : string) (allowAboveRoot : bool) : string :=
  join_slash (normalize_go allowAboveRoot [] (split_slash path)).

(** [path.isAbsolute(p)]. *)
Definition isAbsolute (p : string) : bool :=
  match p with
  | String c _ => Ascii.eqb c slash
  | EmptyString => false
  end.

(** The loop of [path.resolve]: arguments are taken from the last one
    backwards, then the working directory, until an absolute one is met;
    empty arguments are skipped. *)
Fixpoint resolve_loop (backwards : list string) (resolvedPath : string) : string * bool :=
  match backwards with
  | [] => (resolvedPath, false)
  | p :: rest =>
      if bool_decide (p = "") then resolve_loop rest resolvedPath
      else
        let resolvedPath := p +:+ "/" +:+ resolvedPath in
        if isAbsolute p then (resolvedPath, true) else resolve_loop rest resolvedPath
  end.

(** [path.resolve(...args)] in a process whose working directory is [cwd]. *)
Definition resolve (cwd : string) (args : list string) : string :=
  let '(resolvedPath, resolvedAbsolute) := resolve_loop (rev args ++ [cwd]) "" in
  let normalized := normalizeString resolvedPath (negb resolvedAbsolute) in
  if resolvedAbsolute then "/" +:+ normalized
  else if bool_decide (normalized = "") then "." else normalized.

(** The components of a path below ["/"]. *)
Definition components (p : string) : list string :=
  normalize_go false [] (split_slash p).

(** Longest common leading run of components, cut off both lists. *)
Fixpoint strip_common (from to : list string) : list string * list string :=
  match from, to with
  | f :: from', t :: to' =>
      if bool_decide (f = t) then strip_common from' to' else (from, to)
  | _, _ => (from, to)
  end.

(** [path.relative(from, to)]: one [".."] for every component of [from]
    past the common part, then what is left of [to]. *)
Definition relative (cwd from to : string) : string :=
  if bool_decide (from = to) then ""
  else
    let from := resolve cwd [from] in
    let to := resolve cwd [to] in
    if bool_decide (from = to) then ""
    else
      let '(up, down) := strip_common (components from) (components to) in
      join_slash (((λ _, "..") <$> up) ++ down).

(** [path.dirname(p)]: the path up to the last ["/"] that is followed by a
    component, trailing slashes ignored; index 0 is never the cut. *)
Fixpoint dirname_scan (backwards : list ascii) (matchedSlash : bool) : option nat :=
  match backwards with
  | [] => None
  | c :: before =>
      if Ascii.eqb c slash then
        if matchedSlash then dirname_scan before true else Some (length before)
      else dirname_scan before false
  end.

Definition dirname (p : string) : string :=
  match p with
  | EmptyString => "."
  | String c0 rest =>
      let hasRoot := Ascii.eqb c0 slash in
      match dirname_scan (rev (String.list_ascii_of_string rest)) true with
      | None => if hasRoot then "/" else "."
      | Some k =>
          if hasRoot && bool_decide (k = 0%nat) then "//"
          else String c0 (String.substring 0 k rest)
      end
  end.

End Path.

(** ** JSON values

    What [JSON.parse] returns.  An object is the list of its own properties
    in insertion order, each key once; a property that is missing reads as
    [undefined], which is [None] here.  Numbers are only carried around and
    tested with [typeof], so a decimal mantissa and exponent stand for them. *)
#[warnings="-register-all"]
Inductive JSON : Type :=
  | JNull
  | JBool (b : bool)
  | JNum (mantissa exponent : Z)
  | JStr (s : string)
  | JArr (items : list JSON)
  | JObj (props : list (string * JSON)).

Abbreviation obj := (list (string * JSON)).

Definition JInt (n : Z) : JSON := JNum n 0.

(** [o[k]] on a plain object. *)
Fixpoint get (o : obj) (k : string) : option JSON :=
  match o with
  | [] => None
  | (k', v) :: o' => if bool_decide (k' = k) then Some v else get o' k
  end.

(** [k in o]. *)
Definition has (o : obj) (k : string) : bool := bool_decide (is_Some (get o k)).

(** [v[k]] for a key that no built-in prototype defines ([path], [name],
    [arguments], ...): only a plain object can hold it. *)
Definition prop (v : JSON) (k : string) : option JSON :=
  match v with
  | JObj o => get o k
  | _ => None
  end.

(** [typeof v]. *)
Definition typeof (v : option JSON) : string :=
  match v with
  | None => "undefined"
  | Some JNull => "object"
  | Some (JBool _) => "boolean"
  | Some (JNum _ _) => "number"
  | Some (JStr _) => "string"
  | Some (JArr _) => "object"
  | Some (JObj _) => "object"
  end.

Section ToString.
(** [Number.prototype.toString], the shortest decimal form of a double, is
    left to the runtime. *)
Variable Number_toString : Z → Z → string.

(** [`${v}`]: the string a template literal puts in for [v]. *)
Fixpoint toString (v : JSON) : string :=
  match v with
  | JNull => "null"
  | JBool true => "true"
  | JBool false => "false"
  | JNum m e => Number_toString m e
  | JStr s => s
  | JArr items =>
      String.concat ","
        (map (λ x, match x with JNull => "" | _ => toString x end) items)
  | JObj _ => "[object Object]"
  end.

Definition template (v : option JSON) : string :=
  match v with
  | None => "undefined"
  | Some v => toString v
  end.
End ToString.

(** ** File system

    The tree below ["/"], one entry per existing file or directory, keyed by
    the components of its absolute path ([Path.components], which is how the
    system walks the normalized paths the server hands it).  File data is
    the UTF-8 text the server reads and writes.  Links and permissions are
    left out. *)
Inductive inode : Type :=
  | RegularFile (data : string)
  | Directory.

Global Instance inode_eq_dec : EqDecision inode.
Proof. solve_decision. Defined.

Abbreviation filesystem := (gmap (list string) inode).

(** Every call that leaves the process is recorded in order. *)
Inductive io_event : Type :=
  | FsReadFile (p : string)
  | FsWriteFile (p : string) (data : string)
  | FsMkdir (p : string)
  | FsReaddir (p : string)
  | NetGenerate (request : JSON).

Record world : Type := World {
  files : filesystem;
  io_log : list io_event;
}.

(** What a handler can throw: the server's own [MCPServerError], or any
    other [Error] of the runtime, with its [code] (["ENOENT"], ["EISDIR"],
    ...) when it has one. *)
Inductive exn : Type :=
  | MCPServerError (message : string)
  | JsError (code : option string) (message : string).

Definition exn_message (e : exn) : string :=
  match e with
  | MCPServerError m => m
  | JsError _ m => m
  end.

Definition exn_code (e : exn) : option string :=
  match e with
  | MCPServerError _ => None
  | JsError c _ => c
  end.

(** An [async] function: it runs on the world and either throws or returns. *)
Definition IO (A : Type) : Type := world → (exn + A) * world.

Definition ret {A} (a : A) : IO A := λ w, (inr a, w).
Definition throw {A} (e : exn) : IO A := λ w, (inl e, w).
Definition bind {A B} (m : IO A) (k : A → IO B) : IO B :=
  λ w, match m w with
       | (inl e, w') => (inl e, w')
       | (inr a, w') => k a w'
       end.
(** [try { m } catch (error) { h error }]. *)
Definition try_catch {A} (m : IO A) (h : exn → IO A) : IO A :=
  λ w, match m w with
       | (inl e, w') => h e w'
       | (inr a, w') => (inr a, w')
       end.
(** A synchronous call that may throw, awaited. *)
Definition lift {A} (r : exn + A) : IO A := λ w, (r, w).
Definition log_io (ev : io_event) : IO unit :=
  λ w, (inr tt, World (files w) (io_log w ++ [ev])).

Notation "'let*' x := m 'in' k" := (bind m (λ x, k))
  (at level 10, x name, m at level 100, k at level 200, only parsing).

Module Fs.

Definition ENOENT (syscall p : string) : exn :=
  JsError (Some "ENOENT") ("ENOENT: no such file or directory, " +:+ syscall +:+ " '" +:+ p +:+ "'").
Definition EISDIR (syscall p : string) : exn :=
  JsError (Some "EISDIR") ("EISDIR: illegal operation on a directory, " +:+ syscall +:+ " '" +:+ p +:+ "'").
Definition ENOTDIR (syscall p : string) : exn :=
  JsError (Some "ENOTDIR") ("ENOTDIR: not a directory, " +:+ syscall +:+ " '" +:+ p +:+ "'").
Definition EEXIST (syscall p : string) : exn :=
  JsError (Some "EEXIST") ("EEXIST: file already exists, " +:+ syscall +:+ " '" +:+ p +:+ "'").

(** The directory that holds the entry [key]. *)
Definition parent (key : list string) : list string := removelast key.

(** The directories above [key], from ["/"] down to its parent. *)
Definition ancestors (key : list string) : list (list string) :=
  (λ n, take n key) <$> seq 0 (length key).

Definition is_file (fs : filesystem) (key : list string) : bool :=
  match fs !! key with
  | Some (RegularFile _) => true
  | _ => false
  end.

(** The error for a path that leads nowhere: a file on the way makes it
    [ENOTDIR], otherwise it is [ENOENT]. *)
Definition missing (fs : filesystem) (syscall p : string) : exn :=
  if existsb (is_file fs) (ancestors (Path.components p))
  then ENOTDIR syscall p else ENOENT syscall p.

(** [fs.readFile(p, { encoding: "utf-8" })]. *)
Definition readFile (p : string) : IO string :=
  let* _ := log_io (FsReadFile p) in
  λ w, match files w !! Path.components p with
       | Some (RegularFile data) => ret data w
       | Some Directory => throw (EISDIR "read" p) w
       | None => throw (missing (files w) "open" p) w
       end.

(** [fs.writeFile(p, data, { encoding: "utf-8" })]: the file is created or
    replaced as a whole; its directory must exist. *)
Definition writeFile (p data : string) : IO unit :=
  let* _ := log_io (FsWriteFile p data) in
  λ w, let key := Path.components p in
       match files w !! key with
       | Some Directory => throw (EISDIR "open" p) w
       | _ =>
           match files w !! parent key with
           | Some Directory =>
               (inr tt, World (<[key := RegularFile data]> (files w)) (io_log w))
           | _ => throw (missing (files w) "open" p) w
           end
       end.

(** One step of [mkdir -p] towards [target]: the directory [key] is made
    unless it exists; a file in its place stops the walk. *)
Definition mkdir_step (p : string) (target : list string)
    (acc : exn + filesystem) (key : list string) : exn + filesystem :=
  match acc with
  | inl e => inl e
  | inr fs =>
      match fs !! key with
      | Some Directory => inr fs
      | Some (RegularFile _) =>
          inl (if bool_decide (key = target) then EEXIST "mkdir" p else ENOTDIR "mkdir" p)
      | None => inr (<[key := Directory]> fs)
      end
  end.

(** [fs.mkdir(p, { recursive: true })]. *)
Definition mkdir_recursive (p : string) : IO unit :=
  let* _ := log_io (FsMkdir p) in
  λ w, let target := Path.components p in
       match foldl (mkdir_step p target) (inr (files w)) (ancestors target ++ [target]) with
       | inl e => throw e w
       | inr fs => (inr tt, World fs (io_log w))
       end.

Record Dirent : Type := { name : string; isDirectory : bool }.

(** The entries directly inside the directory [dir]. *)
Definition children (fs : filesystem) (dir : list string) : list (string * inode) :=
  omap (λ '(key, node),
          match last key with
          | Some nm => if bool_decide (key = dir ++ [nm]) then Some (nm, node) else None
          | None => None
          end)
       (map_to_list fs).

Definition dirent (e : string * inode) : Dirent :=
  {| name := e.1;
     isDirectory := match e.2 with Directory => true | RegularFile _ => false end |}.

(** [fs.readdir(p, { withFileTypes: true })]. *)
Definition readdir (p : string) : IO (list Dirent) :=
  let* _ := log_io (FsReaddir p) in
  λ w, let key := Path.components p in
       match files w !! key with
       | Some Directory => ret (dirent <$> children (files w) key) w
       | Some (RegularFile _) => throw (ENOTDIR "scandir" p) w
       | None => throw (missing (files w) "scandir" p) w
       end.

End Fs.

(** ** The generate capability *)

(** What [model.generateContent(request)] followed by
    [result?.response?.text()] comes to: it throws, or yields the text, which
    may be missing. *)
Inductive GenerateReply : Type :=
  | GenerateThrows (message : string)
  | GenerateText (text : option string).

Record GeminiClient : Type := { generateContent : JSON → GenerateReply }.

(** JavaScript truthiness of a value read from JSON. *)
Definition truthy (v : option JSON) : bool :=
  match v with
  | None | Some JNull => false
  | Some (JBool b) => b
  | Some (JNum m _) => bool_decide (m ≠ 0)
  | Some (JStr s) => bool_decide (s ≠ "")
  | Some (JArr _) | Some (JObj _) => true
  end.

Definition the_string (v : option JSON) : string :=
  match v with Some (JStr s) => s | _ => "" end.

Definition the_value (v : option JSON) : JSON := default JNull v.

Definition newline : string := String (ascii_of_nat 10) "".

Definition text_part (role : string) (text : JSON) : JSON :=
  JObj [("role", JStr role); ("parts", JArr [JObj [("text", text)]])].

(** [GeminiClient.generate({ prompt, systemPrompt, temperature, topP })]. *)
Definition generate (client : GeminiClient)
    (prompt systemPrompt temperature topP : option JSON) : IO string :=
  if negb (truthy prompt) || bool_decide (typeof prompt ≠ "string") then
    throw (MCPServerError "'prompt' must be a non-empty string.")
  else
    let contents :=
      (if truthy systemPrompt then [text_part "system" (the_value systemPrompt)] else [])
      ++ [text_part "user" (the_value prompt)] in
    let generationConfig :=
      (if bool_decide (typeof temperature = "number")
       then [("temperature", the_value temperature)] else [])
      ++ (if bool_decide (typeof topP = "number") then [("topP", the_value topP)] else []) in
    let request :=
      JObj (("contents", JArr contents)
            :: match generationConfig with
               | [] => []
               | _ => [("generationConfig", JObj generationConfig)]
               end) in
    try_catch
      (let* _ := log_io (NetGenerate request) in
       match generateContent client request with
       | GenerateThrows message => throw (JsError None message)
       | GenerateText text =>
           if truthy (JStr <$> text) then ret (default "" text)
           else throw (MCPServerError "Gemini response did not contain text output.")
       end)
      (λ error, throw (MCPServerError ("Gemini call failed: " +:+ exn_message error))).

(** ** The server *)

Record ToolResult : Type := { text : string; isError : option bool }.

Module Tool.
Record t : Type := {
  name : string;
  description : string;
  inputSchema : JSON;
  handler : obj → IO ToolResult;
}.
End Tool.

Record LocalMCPServer : Type := {
  root : string;
  debug : bool;
  gemini : option GeminiClient;
}.

(** What a line does to the session. *)
Inductive control : Type := Continue | Exit.

Section Server.

(** The runtime the process lives in: its working directory, [JSON.parse],
    [String.prototype.trim], [String.prototype.localeCompare] and the
    printing of numbers. *)
Variable cwd : string.
Variable JSON_parse : string → option JSON.
Variable trim : string → string.
Variable localeCompare : string → string → Z.
Variable Number_toString : Z → Z → string.

(** The constructor: [root] is made absolute; the client is missing when
    the key is empty or the SDK refuses to build one ([connect]). *)
Definition new_LocalMCPServer (rootArg : string) (debugArg : bool)
    (GOOGLE_API_KEY : string) (connect : option GeminiClient) : LocalMCPServer :=
  {| root := Path.resolve cwd [rootArg];
     debug := debugArg;
     gemini := if bool_decide (GOOGLE_API_KEY = "") then None else connect |}.

Variable this : LocalMCPServer.

Definition resolvePath (userPath : string) : exn + string :=
  let resolved := Path.resolve cwd [root this; userPath] in
  if bool_decide (resolved = root this) then inr resolved
  else
    let relative := Path.relative cwd (root this) resolved in
    if Path.startsWith ".." relative || Path.isAbsolute relative then
      inl (MCPServerError ("Path '" +:+ userPath +:+ "' is outside of the server root."))
    else inr resolved.

Definition handleReadFile (args : obj) : IO ToolResult :=
  let userPath := get args "path" in
  if bool_decide (typeof userPath ≠ "string") then
    throw (MCPServerError "'path' must be a string.")
  else
    let userPath := the_string userPath in
    let* resolved := lift (resolvePath userPath) in
    try_catch
      (let* data := Fs.readFile resolved in
       ret {| text := data; isError := None |})
      (λ error,
         if bool_decide (exn_code error = Some "ENOENT") then
           throw (MCPServerError ("File not found: " +:+ userPath))
         else if bool_decide (exn_code error = Some "EISDIR") then
           throw (MCPServerError ("Path is a directory: " +:+ userPath))
         else
           throw (MCPServerError
                    ("Failed to read file " +:+ userPath +:+ ": " +:+ exn_message error))).

Definition handleWriteFile (args : obj) : IO ToolResult :=
  let userPath := get args "path" in
  let content := get args "content" in
  let createParents := Some (default (JBool false) (get args "create_parents")) in
  if bool_decide (typeof userPath ≠ "string") then
    throw (MCPServerError "'path' must be a string.")
  else if bool_decide (typeof content ≠ "string") then
    throw (MCPServerError "'content' must be a string.")
  else if bool_decide (typeof createParents ≠ "boolean") then
    throw (MCPServerError "'create_parents' must be a boolean.")
  else
    let userPath := the_string userPath in
    let content := the_string content in
    let* resolved := lift (resolvePath userPath) in
    let* _ := (if truthy createParents
               then Fs.mkdir_recursive (Path.dirname resolved) else ret tt) in
    try_catch
      (let* _ := Fs.writeFile resolved content in
       ret {| text := "Wrote " +:+ Path.relative cwd (root this) resolved;
              isError := None |})
      (λ error,
         if bool_decide (exn_code error = Some "EISDIR") then
           throw (MCPServerError ("Cannot write to directory path: " +:+ userPath))
         else
           throw (MCPServerError
                    ("Failed to write file " +:+ userPath +:+ ": " +:+ exn_message error))).

(** [names.sort((a, b) => a.localeCompare(b))]: a stable sort; [a] stays
    in front of [b] unless the comparison is positive. *)
Fixpoint sort_insert (a : string) (sorted : list string) : list string :=
  match sorted with
  | [] => [a]
  | b :: rest =>
      if bool_decide (localeCompare a b ≤ 0) then a :: sorted
      else b :: sort_insert a rest
  end.

Definition sort (names : list string) : list string := foldr sort_insert [] names.

Definition handleListDir (args : obj) : IO ToolResult :=
  let userPath :=
    match get args "path" with
    | None | Some JNull => Some (JStr ".")
    | Some v => Some v
    end in
  if bool_decide (typeof userPath ≠ "string") then
    throw (MCPServerError "'path' must be a string.")
  else
    let userPath := the_string userPath in
    let* resolved := lift (resolvePath userPath) in
    let* entries :=
      try_catch (Fs.readdir resolved)
        (λ error,
           if bool_decide (exn_code error = Some "ENOENT") then
             throw (MCPServerError ("Directory not found: " +:+ userPath))
           else
             throw (MCPServerError
                      ("Failed to list directory " +:+ userPath +:+ ": "
                       +:+ exn_message error))) in
    let names :=
      sort ((λ entry, if Fs.isDirectory entry then Fs.name entry +:+ "/" else Fs.name entry)
              <$> entries) in
    let joined := String.concat newline names in
    ret {| text := if bool_decide (joined = "") then "(empty)" else joined;
           isError := None |}.

Definition handleCallGemini (args : obj) : IO ToolResult :=
  match gemini this with
  | None =>
      throw (MCPServerError
               "Gemini client is not configured. Ensure @google/generative-ai is installed and GOOGLE_API_KEY is exported.")
  | Some client =>
      let prompt := get args "prompt" in
      let systemPrompt := get args "system_prompt" in
      let temperature := get args "temperature" in
      let topP := get args "top_p" in
      if bool_decide (typeof prompt ≠ "string") then
        throw (MCPServerError "'prompt' must be a string.")
      else if bool_decide (systemPrompt ≠ None ∧ typeof systemPrompt ≠ "string") then
        throw (MCPServerError "'system_prompt' must be a string when provided.")
      else if bool_decide (temperature ≠ None ∧ typeof temperature ≠ "number") then
        throw (MCPServerError "'temperature' must be numeric when provided.")
      else if bool_decide (topP ≠ None ∧ typeof topP ≠ "number") then
        throw (MCPServerError "'top_p' must be numeric when provided.")
      else
        let* text := generate client prompt systemPrompt temperature topP in
        ret {| text := text; isError := None |}
  end.

(** *** The registry *)

Definition string_property (description : string) : JSON :=
  JObj [("type", JStr "string"); ("description", JStr description)].
Definition boolean_property (description : string) : JSON :=
  JObj [("type", JStr "boolean"); ("description", JStr description)].
Definition number_property (description : string) : JSON :=
  JObj [("type", JStr "number"); ("description", JStr description)].
Definition object_schema (properties : obj) (required : list string) : JSON :=
  JObj [("type", JStr "object");
        ("properties", JObj properties);
        ("required", JArr (JStr <$> required));
        ("additionalProperties", JBool false)].

Definition read_file_tool : Tool.t :=
  {| Tool.name := "read_file";
     Tool.description := "Read a UTF-8 encoded text file relative to the server root.";
     Tool.inputSchema :=
       object_schema
         [("path", string_property "Path relative to the configured root.")]
         ["path"];
     Tool.handler := handleReadFile |}.

Definition write_file_tool : Tool.t :=
  {| Tool.name := "write_file";
     Tool.description := "Write UTF-8 encoded content to a file relative to the server root.";
     Tool.inputSchema :=
       object_schema
         [("path", string_property "Path relative to the configured root.");
          ("content", string_property "Content that will replace the file.");
          ("create_parents", boolean_property "Create parent directories when missing.")]
         ["path"; "content"];
     Tool.handler := handleWriteFile |}.

Definition list_dir_tool : Tool.t :=
  {| Tool.name := "list_dir";
     Tool.description := "List files at a path relative to the server root.";
     Tool.inputSchema :=
       object_schema
         [("path", string_property "Directory path relative to the root. Defaults to '.'.")]
         [];
     Tool.handler := handleListDir |}.

Definition call_gemini_tool : Tool.t :=
  {| Tool.name := "call_gemini";
     Tool.description := "Send a prompt to the Gemini Nano Banana model to create game assets.";
     Tool.inputSchema :=
       object_schema
         [("prompt", string_property "User prompt sent to Gemini.");
          ("system_prompt", string_property "Optional system prompt to guide Gemini.");
          ("temperature", number_property "Sampling temperature (0.0-1.0).");
          ("top_p", number_property "Top-p nucleus sampling threshold.")]
         ["prompt"];
     Tool.handler := handleCallGemini |}.

(** [this.tools], in insertion order. *)
Definition tools : list (string * Tool.t) :=
  [ ("read_file", read_file_tool);
    ("write_file", write_file_tool);
    ("list_dir", list_dir_tool);
    ("call_gemini", call_gemini_tool) ].

(** [this.tools.get(name)]: the keys are strings, so only a string finds
    a tool. *)
Definition tools_get (name : option JSON) : option Tool.t :=
  match name with
  | Some (JStr key) =>
      (λ found : nat * (string * Tool.t), found.2.2)
        <$> list_find (λ entry : string * Tool.t, entry.1 = key) tools
  | _ => None
  end.

Definition tools_has (name : option JSON) : bool := bool_decide (is_Some (tools_get name)).

(** *** Requests *)

Definition jsonrpcError (id : JSON) (code : Z) (message : string) : JSON :=
  JObj [("jsonrpc", JStr "2.0");
        ("id", id);
        ("error", JObj [("code", JInt code); ("message", JStr message)])].

Definition jsonrpcResult (id : JSON) (result : JSON) : JSON :=
  JObj [("jsonrpc", JStr "2.0"); ("id", id); ("result", result)].

(** The [tools/call] envelope. *)
Definition toolEnvelope (text : string) (isError : bool) : JSON :=
  JObj [("content", JArr [JObj [("type", JStr "text"); ("text", JStr text)]]);
        ("isError", JBool isError)].

(** [method === s] for a string literal [s]. *)
Definition is_method (method : JSON) (s : string) : bool :=
  match method with
  | JStr m => bool_decide (m = s)
  | _ => false
  end.

Definition handleRequest (id method params : JSON) : world → JSON * world :=
  λ w,
  if is_method method "initialize" then
    (jsonrpcResult id
       (JObj [("protocolVersion", JStr "2024-01-01");
              ("capabilities", JObj [("tools", JBool true)]);
              ("serverInfo",
               JObj [("name", JStr "assets-creator"); ("version", JStr "0.1.0")])]),
     w)
  else if is_method method "tools/list" then
    (jsonrpcResult id
       (JObj [("tools",
               JArr ((λ tool : string * Tool.t,
                        JObj [("name", JStr (Tool.name tool.2));
                              ("description", JStr (Tool.description tool.2));
                              ("inputSchema", Tool.inputSchema tool.2)])
                     <$> tools));
              ("nextCursor", JNull)]),
     w)
  else if is_method method "tools/call" then
    let name := prop params "name" in
    let args := default (JObj []) (prop params "arguments") in
    match tools_get name with
    | None =>
        (jsonrpcError id (-32601)
           ("Unknown tool '" +:+ template Number_toString name +:+ "'."), w)
    | Some tool =>
        match args with
        | JObj args =>
            match Tool.handler tool args w with
            | (inr toolResult, w') =>
                (jsonrpcResult id
                   (toolEnvelope (text toolResult)
                      (bool_decide (isError toolResult = Some true))),
                 w')
            | (inl error, w') =>
                let message :=
                  match error with
                  | MCPServerError message => message
                  | JsError _ message => "Tool failed: " +:+ message
                  end in
                (jsonrpcResult id (toolEnvelope message true), w')
            end
        | _ => (jsonrpcError id (-32602) "arguments must be an object.", w)
        end
    end
  else if is_method method "ping" then (jsonrpcResult id (JStr "pong"), w)
  else if is_method method "shutdown" then (jsonrpcResult id JNull, w)
  else
    (jsonrpcError id (-32601)
       ("Unsupported method '" +:+ toString Number_toString method +:+ "'."), w).

(** Only [exit] does anything the protocol can see: it ends the process. *)
Definition handleNotification (method params : JSON) : control :=
  if is_method method "initialized" then Continue
  else if is_method method "exit" then Exit
  else Continue.

(** *** The session loop

    [run] reads the lines of standard input one at a time.  What it writes
    to standard output is returned in order; diagnostics go to standard
    error and are left out. *)

(** [sendError(null, { code: -32700, message: "Invalid JSON received." })]. *)
Definition parseErrorResponse : JSON :=
  JObj [("jsonrpc", JStr "2.0");
        ("id", JNull);
        ("error", JObj [("code", JInt (-32700)); ("message", JStr "Invalid JSON received.")])].

(** The body of the loop for one line: what is sent, whether the process
    goes on, and the world afterwards. *)
Definition handleLine (rawLine : string) (w : world) : list JSON * control * world :=
  let line := trim rawLine in
  if bool_decide (line = "") then ([], Continue, w)
  else
    match JSON_parse line with
    | None => ([parseErrorResponse], Continue, w)
    | Some (JObj message) =>
        match get message "method" with
        | Some method =>
            let params := default (JObj []) (get message "params") in
            match get message "id" with
            | Some id =>
                let '(response, w') := handleRequest id method params w in
                ([response], Continue, w')
            | None => ([], handleNotification method params, w)
            end
        | None => ([], Continue, w)
        end
    | Some _ => ([], Continue, w)
    end.

Fixpoint run (lines : list string) (w : world) : list JSON * world :=
  match lines with
  | [] => ([], w)
  | rawLine :: rest =>
      match handleLine rawLine w with
      | (sent, Continue, w') =>
          let '(later, w'') := run rest w' in (sent ++ later, w'')
      | (sent, Exit, w') => (sent, w')
      end
  end.

End Server.

(** * Specification vocabulary *)

(** ** Paths *)

Definition slash_free (s : string) : Prop :=
  Path.slash ∉ String.list_ascii_of_string s.

(** A name that can stand between two slashes of a normalized path. *)
Definition component (s : string) : Prop :=
  slash_free s ∧ s ≠ "" ∧ s ≠ "." ∧ s ≠ "..".

(** The normalized absolute path with the given components. *)
Definition of_components (segs : list string) : string := "/" +:+ Path.join_slash segs.

(** An absolute path that [path.resolve] leaves alone, as [this.root] is. *)
Definition normalized_absolute (p : string) : Prop := Path.resolve "/" [p] = p.

(** [p] is [root] itself or lies below it. *)
Definition within (root p : string) : Prop :=
  Path.components root `prefix_of` Path.components p.

Global Instance within_dec root p : Decision (within root p).
Proof. unfold within. apply _. Defined.

(** The entry of [root] on the way to [p] has a name that begins with two
    dots (["..cache"], ["..."], ...). *)
Definition dotdot_named (root p : string) : bool :=
  match head (drop (length (Path.components root)) (Path.components p)) with
  | Some d => Path.startsWith ".." d
  | None => false
  end.

Definition outside_root_error (userPath : string) : exn :=
  MCPServerError ("Path '" +:+ userPath +:+ "' is outside of the server root.").

(** ** Tool arguments *)

(** The type that the input schema of [tool] declares for [field]. *)
Definition declared_type (tool : Tool.t) (field : string) : option string :=
  match prop (Tool.inputSchema tool) "properties" with
  | Some properties =>
      match prop properties field with
      | Some declaration =>
          match prop declaration "type" with
          | Some (JStr ty) => Some ty
          | _ => None
          end
      | None => None
      end
  | None => None
  end.

(** [field] is listed under [required] in the input schema of [tool]. *)
Definition is_required (tool : Tool.t) (field : string) : bool :=
  match prop (Tool.inputSchema tool) "required" with
  | Some (JArr fields) =>
      existsb (λ v, match v with JStr f => bool_decide (f = field) | _ => false end) fields
  | _ => false
  end.

(** [field] is declared, present in [args], and its value (possibly [null])
    is not of the declared type. *)
Definition wrong_type (tool : Tool.t) (args : obj) (field : string) : Prop :=
  ∃ ty v, declared_type tool field = Some ty
          ∧ get args field = Some v ∧ typeof (Some v) ≠ ty.

(** [field] is declared and [args] does not supply it properly: its value
    has the wrong type, or it is required and missing. *)
Definition offending (tool : Tool.t) (args : obj) (field : string) : Prop :=
  ∃ ty, declared_type tool field = Some ty
        ∧ match get args field with
          | Some v => typeof (Some v) ≠ ty
          | None => is_required tool field = true
          end.

(** The invalid-argument messages start with the quoted field name. *)
Definition names_field (message field : string) : Prop :=
  Path.startsWith ("'" +:+ field +:+ "' must be ") message = true.

(** The handler of [tool] turns [args] down with an invalid-argument error
    that names a wrongly typed field, and the world is as before. *)
Definition rejects_before_effects (tool : Tool.t) (args : obj) (w : world) : Prop :=
  ∃ message field,
    wrong_type tool args field ∧ names_field message field
    ∧ Tool.handler tool args w = (inl (MCPServerError message), w).

Definition not_configured_message : string :=
  "Gemini client is not configured. Ensure @google/generative-ai is installed and GOOGLE_API_KEY is exported.".

(** ** Protocol *)

(** The [id] member of a response. *)
Definition response_id (response : JSON) : option JSON := prop response "id".

(** A response with a [result] and no [error]. *)
Definition is_success (response : JSON) : Prop :=
  is_Some (prop response "result") ∧ prop response "error" = None.

(** A response with an [error] carrying [code], and no [result]. *)
Definition is_protocol_error (response : JSON) (code : Z) : Prop :=
  prop response "result" = None
  ∧ (prop response "error" ≫= λ e, prop e "code") = Some (JInt code).

Section Expectation.
Variable JSON_parse : string → option JSON.
Variable trim : string → string.

(** From the protocol description: a line that holds an object with a
    [method] and an [id] is a request and is owed one response with that
    id; a line that is not JSON is owed one error response with the id
    [null]; nothing else is answered. *)
Definition expected_ids (rawLine : string) : list JSON :=
  if bool_decide (trim rawLine = "") then []
  else
    match JSON_parse (trim rawLine) with
    | None => [JNull]
    | Some (JObj message) =>
        if has message "method" then
          match get message "id" with
          | Some id => [id]
          | None => []
          end
        else []
    | Some _ => []
    end.


End Expectation.

(** ** Directory listings *)




(** ** Effects *)

(** Where the server may reach: the file operations stay on the root or
    below it, except that [mkdir] may also be asked for the directory that
    holds the root (when the path written to is the root itself). *)
Definition reach (root : string) (ev : io_event) : Prop :=
  match ev with
  | FsReadFile p | FsWriteFile p _ | FsReaddir p => within root p
  | FsMkdir p => within root p ∨ p = Path.dirname root
  | NetGenerate _ => True
  end.

(** ** Tool calls *)

(** Arguments of [write_file] that pass its three type checks: a string
    [path], a string [content], and [create_parents] absent (so [false]) or
    a boolean. *)
Definition write_args (args : obj) (p s : string) (parents : bool) : Prop :=
  get args "path" = Some (JStr p)
  ∧ get args "content" = Some (JStr s)
  ∧ default (JBool false) (get args "create_parents") = JBool parents.

(** The tool names that a [tools/list] response advertises. *)
Definition listed_names (response : JSON) : list string :=
  match prop response "result" ≫= λ r, prop r "tools" with
  | Some (JArr items) =>
      omap (λ item, match prop item "name" with
                    | Some (JStr n) => Some n
                    | _ => None
                    end) items
  | _ => []
  end.

Definition no_text_message : string :=
  "Gemini call failed: Gemini response did not contain text output.".

(** What [call_gemini] makes of the reply of the model. *)
Definition gemini_outcome (reply : GenerateReply) : exn + ToolResult :=
  match reply with
  | GenerateThrows message => inl (MCPServerError ("Gemini call failed: " +:+ message))
  | GenerateText None => inl (MCPServerError no_text_message)
  | GenerateText (Some t) =>
      if bool_decide (t = "") then inl (MCPServerError no_text_message)
      else inr {| text := t; isError := None |}
  end.

(** * A sample runtime

    A concrete host for the server, used to run the model on examples. *)

(** Comparison of the bytes, standing in for a locale. *)
Definition byte_compare (a b : string) : Z :=
  match String.compare a b with
  | Lt => -1
  | Eq => 0
  | Gt => 1
  end.

Definition sample_Number_toString (m e : Z) : string :=
  if bool_decide (e = 0) then pretty m else pretty m +:+ "e" +:+ pretty e.

Definition is_blank (c : ascii) : bool :=
  bool_decide (c = " "%char) || bool_decide (c = ascii_of_nat 9)
  || bool_decide (c = ascii_of_nat 10) || bool_decide (c = ascii_of_nat 13).

Fixpoint drop_blanks (l : list ascii) : list ascii :=
  match l with
  | c :: l' => if is_blank c then drop_blanks l' else l
  | [] => []
  end.

Definition sample_trim (s : string) : string :=
  String.string_of_list_ascii
    (rev (drop_blanks (rev (drop_blanks (String.list_ascii_of_string s))))).

Definition dq : string := String (ascii_of_nat 34) "".

(** [{"jsonrpc":"2.0","id":7,"method":"ping"}] *)
Definition ping_line : string :=
  "{" +:+ dq +:+ "jsonrpc" +:+ dq +:+ ":" +:+ dq +:+ "2.0" +:+ dq +:+ ","
  +:+ dq +:+ "id" +:+ dq +:+ ":7,"
  +:+ dq +:+ "method" +:+ dq +:+ ":" +:+ dq +:+ "ping" +:+ dq +:+ "}".

(** [{"id":null,"method":"ping"}] *)
Definition null_id_line : string :=
  "{" +:+ dq +:+ "id" +:+ dq +:+ ":null,"
  +:+ dq +:+ "method" +:+ dq +:+ ":" +:+ dq +:+ "ping" +:+ dq +:+ "}".

(** [{"method":"exit"}] *)
Definition exit_line : string :=
  "{" +:+ dq +:+ "method" +:+ dq +:+ ":" +:+ dq +:+ "exit" +:+ dq +:+ "}".

(** [{"id":3,"result":"ok"}] *)
Definition reply_line : string :=
  "{" +:+ dq +:+ "id" +:+ dq +:+ ":3,"
  +:+ dq +:+ "result" +:+ dq +:+ ":" +:+ dq +:+ "ok" +:+ dq +:+ "}".

(** A parser that knows the sample lines and nothing else. *)
Definition sample_parse (line : string) : option JSON :=
  if bool_decide (line = ping_line) then
    Some (JObj [("jsonrpc", JStr "2.0"); ("id", JInt 7); ("method", JStr "ping")])
  else if bool_decide (line = null_id_line) then
    Some (JObj [("id", JNull); ("method", JStr "ping")])
  else if bool_decide (line = exit_line) then
    Some (JObj [("method", JStr "exit")])
  else if bool_decide (line = reply_line) then
    Some (JObj [("id", JInt 3); ("result", JStr "ok")])
  else None.

Definition sample_files : filesystem :=
  list_to_map
    [([], Directory);
     (["sandbox"], Directory);
     (["sandbox"; "b.txt"], RegularFile "hello");
     (["sandbox"; "a"], Directory);
     (["sandbox"; "a"; "c.txt"], RegularFile "nested")].

Definition sample_world : world := World sample_files [].

(** A server on [/sandbox] started without an API key. *)
Definition sample_server : LocalMCPServer :=
  new_LocalMCPServer "/home/dev" "/sandbox" false "" None.

Definition canned_client : GeminiClient :=
  {| generateContent := λ _, GenerateText (Some "a sprite") |}.

(** The same server started with a key. *)
Definition sample_server_with_gemini : LocalMCPServer :=
  new_LocalMCPServer "/home/dev" "/sandbox" false "key" (Some canned_client).

(** Requests and arguments used in the examples. *)
Definition sample_request (id method params : JSON) : JSON * world :=
  handleRequest "/home/dev" byte_compare sample_Number_toString sample_server
    id method params sample_world.

Definition sample_session (lines : list string) : list JSON * world :=
  run "/home/dev" sample_parse sample_trim byte_compare sample_Number_toString
    sample_server lines sample_world.

Definition read_missing_args : obj := [("path", JStr "missing.txt")].
Definition read_missing_params : JSON :=
  JObj [("name", JStr "read_file"); ("arguments", JObj read_missing_args)].
Definition numeric_path_args : obj := [("path", JInt 5); ("content", JStr "x")].
Definition null_path_args : obj := [("path", JNull)].
Definition escaping_write_args : obj :=
  [("path", JStr "../etc/passwd"); ("content", JStr "x"); ("create_parents", JBool true)].
Definition notes_write_args : obj :=
  [("path", JStr "notes.txt"); ("content", JStr "level 1: forest")].

(** The sample world once [notes.txt] has been written. *)
Definition world_with_notes : world :=
  World (<[["sandbox"; "notes.txt"] := RegularFile "level 1: forest"]> sample_files)
        [FsWriteFile "/sandbox/notes.txt" "level 1: forest"].


Definition tree_prompt_args : obj :=
  [("prompt", JStr "a tree"); ("temperature", JNum 7 (-1))].

Definition list_dir_params : JSON := JObj [("name", JStr "list_dir")].
Definition list_dir_empty_params : JSON :=
  JObj [("name", JStr "list_dir"); ("arguments", JObj [])].
Definition list_dir_array_params : JSON :=
  JObj [("name", JStr "list_dir"); ("arguments", JArr [])].

(** [{"id":1,"method":"tools/call","params":{"name":"write_file","arguments":{"path":"notes.txt","content":"level 1: forest"}}}] *)
Definition write_line : string :=
  "{" +:+ dq +:+ "id" +:+ dq +:+ ":1,"
  +:+ dq +:+ "method" +:+ dq +:+ ":" +:+ dq +:+ "tools/call" +:+ dq +:+ ","
  +:+ dq +:+ "params" +:+ dq +:+ ":{"
  +:+ dq +:+ "name" +:+ dq +:+ ":" +:+ dq +:+ "write_file" +:+ dq +:+ ","
  +:+ dq +:+ "arguments" +:+ dq +:+ ":{"
  +:+ dq +:+ "path" +:+ dq +:+ ":" +:+ dq +:+ "notes.txt" +:+ dq +:+ ","
  +:+ dq +:+ "content" +:+ dq +:+ ":" +:+ dq +:+ "level 1: forest" +:+ dq +:+ "}}}".

Definition write_message : obj :=
  [("id", JInt 1); ("method", JStr "tools/call");
   ("params", JObj [("name", JStr "write_file"); ("arguments", JObj notes_write_args)])].

(** The sample parser, taught the [write_file] call as well. *)
Definition tools_parse (line : string) : option JSON :=
  if bool_decide (line = write_line) then Some (JObj write_message) else sample_parse line.

(** * Facts about the [path] functions *)

Section PathFacts.
Import Path.

Example resolve_ex1 : resolve "/home" ["/sandbox"; "a/../b//c/."] = "/sandbox/b/c".
Proof. reflexivity. Qed.
Example resolve_ex2 : resolve "/home" ["/sandbox"; "../../etc/passwd"] = "/etc/passwd".
Proof. reflexivity. Qed.
Example resolve_ex3 : resolve "/home/u" ["proj/"] = "/home/u/proj".
Proof. reflexivity. Qed.
Example relative_ex1 : relative "/" "/sandbox" "/etc/passwd" = "../etc/passwd".
Proof. reflexivity. Qed.
Example relative_ex2 : relative "/" "/sandbox" "/sandbox/..foo" = "..foo".
Proof. reflexivity. Qed.
Example relative_ex3 : relative "/" "/foo/bar" "/foo/barbaz/q" = "../barbaz/q".
Proof. reflexivity. Qed.
Example dirname_ex1 : dirname "/a/b" = "/a" ∧ dirname "/a" = "/" ∧ dirname "/" = "/"
∧ dirname "/a//b" = "/a/" ∧ dirname "//a" = "//" ∧ dirname "a" = "." ∧ dirname "a/b/" = "a".
Proof. repeat split; reflexivity. Qed.


Lemma split_slash_nonempty s : split_slash s ≠ [].
Proof. destruct s as [|c s]; simpl; [done|]. destruct (Ascii.eqb c slash); [done|]. by destruct (split_slash s). Qed.

Lemma split_slash_app a b :
split_slash (a +:+ "/" +:+ b) = split_slash a ++ split_slash b.
Proof.
induction a as [|c a IH]; simpl; [done|].
destruct (Ascii.eqb c slash); [by rewrite IH|].
rewrite IH. pose proof (split_slash_nonempty a). by destruct (split_slash a).
Qed.

Lemma split_slash_free s : slash_free s → split_slash s = [s].
Proof.
unfold slash_free. induction s as [|c s IH]; simpl; [done|].
intros H. apply not_elem_of_cons in H as [Hc Hs].
destruct (Ascii.eqb_spec c slash); [congruence|]. by rewrite IH.
Qed.

Lemma slash_free_empty : slash_free "".
Proof. apply not_elem_of_nil. Qed.

Lemma slash_free_String c s : c ≠ slash → slash_free s → slash_free (String c s).
Proof. intros Hc Hs. unfold slash_free in *. simpl. apply not_elem_of_cons. auto. Qed.

Lemma split_slash_parts s : Forall slash_free (split_slash s).
Proof.
induction s as [|c s IH]; simpl.
- repeat constructor. apply slash_free_empty.
- destruct (Ascii.eqb_spec c slash).
  + constructor; [|done]. apply slash_free_empty.
  + destruct (split_slash s) as [|h t]; inversion IH; subst.
    * repeat constructor. by apply slash_free_String, slash_free_empty.
    * constructor; [|done]. by apply slash_free_String.
Qed.

Lemma join_slash_cons s rest : rest ≠ [] → join_slash (s :: rest) = s +:+ "/" +:+ join_slash rest.
Proof. by destruct rest. Qed.

Lemma split_join parts : parts ≠ [] → Forall slash_free parts → split_slash (join_slash parts) = parts.
Proof.
induction parts as [|s rest IH]; [done|]. intros _ H. inversion H; subst.
destruct rest as [|s' rest'].
- simpl. by apply split_slash_free.
- rewrite join_slash_cons by done. rewrite split_slash_app, IH by done.
  by rewrite split_slash_free.
Qed.

Lemma normalize_go_clean b kept parts :
Forall (λ p, p = "" ∨ component p) parts →
normalize_go b kept parts = rev kept ++ filter (λ p, p ≠ "") parts.
Proof.
intros H. revert kept. induction H as [|p parts [->|(Hf & Hne & Hd & Hdd)] _ IH]; intros kept; simpl.
- by rewrite app_nil_r.
- rewrite IH. by rewrite filter_cons_False by (intros Hn; by apply Hn).
- rewrite bool_decide_eq_false_2 by (intros [?|?]; done).
  rewrite bool_decide_eq_false_2 by done.
  rewrite IH, filter_cons_True by done. simpl. by rewrite <- app_assoc.
Qed.

Lemma normalize_go_components kept parts :
Forall component kept → Forall slash_free parts →
Forall component (normalize_go false kept parts).
Proof.
intros Hk Hp. revert kept Hk. induction Hp as [|p parts Hf _ IH]; intros kept Hk; simpl.
- rewrite rev_alt. by apply Forall_reverse.
- case_bool_decide as H1; [by apply IH|].
  case_bool_decide as H2.
  + destruct kept as [|top below]; [by apply IH|].
    inversion Hk as [|? ? (_ & _ & _ & Htop) Hbelow]; subst.
    rewrite bool_decide_eq_false_2 by done. by apply IH.
  + apply IH. constructor; [|done]. repeat split; auto.
Qed.

Lemma split_join_or_empty segs :
Forall component segs →
Forall (λ p, p = "" ∨ component p) (split_slash (join_slash segs))
∧ filter (λ p, p ≠ "") (split_slash (join_slash segs)) = segs.
Proof.
intros H. destruct segs as [|s segs'].
- simpl. split; [by repeat constructor|]. done.
- rewrite split_join; [| done | by eapply Forall_impl; [exact H|]; intros ? []].
  split; [by eapply Forall_impl; [exact H|]; auto|].
  induction H as [|x l (_ & Hx & _) _ IH]; [done|].
  by rewrite filter_cons_True, IH.
Qed.

Lemma split_slash_root s : split_slash ("/" +:+ s) = "" :: split_slash s.
Proof. reflexivity. Qed.

Lemma components_of_components segs :
Forall component segs → components (of_components segs) = segs.
Proof.
intros H. destruct (split_join_or_empty segs H) as [Hall Hfilter].
unfold components, of_components. rewrite split_slash_root.
rewrite normalize_go_clean by (constructor; auto). simpl.
by rewrite filter_cons_False by (intros Hn; by apply Hn).
Qed.

Lemma resolve_loop_absolute l acc :
Exists (λ p, isAbsolute p = true) l → (resolve_loop l acc).2 = true.
Proof.
intros H. revert acc. induction H as [p l Hp|p l _ IH]; intros acc; simpl.
- rewrite bool_decide_eq_false_2 by (by intros ->). by rewrite Hp.
- case_bool_decide; [done|]. by destruct (isAbsolute p).
Qed.

Lemma resolve_normal_form cwd args :
Exists (λ p, isAbsolute p = true) (args ++ [cwd]) →
∃ segs, Forall component segs ∧ resolve cwd args = of_components segs.
Proof.
intros H. unfold resolve.
assert (Exists (λ p, isAbsolute p = true) (rev args ++ [cwd])) as H'.
{ apply Exists_app. apply Exists_app in H as [H|H]; [left|by right].
  by apply List.Exists_rev. }
pose proof (resolve_loop_absolute _ "" H') as Habs.
destruct (resolve_loop _ _) as [rp abs]. simpl in Habs. subst abs.
eexists. split; [|reflexivity].
apply normalize_go_components; [constructor|apply split_slash_parts].
Qed.


Lemma resolve_absolute cwd p :
isAbsolute p = true → resolve cwd [p] = "/" +:+ join_slash (components (p +:+ "/" +:+ "")).
Proof.
intros Hp. unfold resolve. cbn [rev app resolve_loop].
rewrite bool_decide_eq_false_2 by (by intros ->). by rewrite Hp.
Qed.

Lemma resolve_of_components cwd segs :
Forall component segs → resolve cwd [of_components segs] = of_components segs.
Proof.
intros H. destruct (split_join_or_empty segs H) as [Hall Hfilter].
rewrite resolve_absolute by done. unfold of_components at 2. f_equal. f_equal.
unfold components, of_components.
change (("/" +:+ join_slash segs) +:+ "/" +:+ "")
  with ("/" +:+ join_slash segs +:+ "/" +:+ "").
rewrite split_slash_root, split_slash_app.
rewrite normalize_go_clean.
- cbn [rev app]. rewrite filter_cons_False by (intros Hn; by apply Hn).
  rewrite filter_app, Hfilter. cbn [split_slash].
  rewrite filter_cons_False by (intros Hn; by apply Hn).
  by rewrite filter_nil, app_nil_r.
- constructor; [auto|]. apply Forall_app. split; [done|]. constructor; auto.
Qed.

Lemma strip_common_split from to :
∃ common, from = common ++ (strip_common from to).1
          ∧ to = common ++ (strip_common from to).2.
Proof.
revert to. induction from as [|f from IH]; intros to; [by exists []|].
destruct to as [|t to]; [by exists []|]. simpl.
case_bool_decide as Hft; [|by exists []]. subst t.
destruct (IH to) as (common & H1 & H2). exists (f :: common). split; simpl; congruence.
Qed.

Lemma strip_common_prefix from to :
from `prefix_of` to ↔ (strip_common from to).1 = [].
Proof.
revert to. induction from as [|f from IH]; intros to; simpl.
- split; [done|]. intros _. apply prefix_nil.
- destruct to as [|t to]; simpl.
  + split; [|done]. intros H. by apply prefix_nil_not in H.
  + case_bool_decide as Hft.
    * subst t. rewrite <- IH. split; [apply prefix_cons_inv_2|apply prefix_cons].
    * split; [|done]. intros H. by apply prefix_cons_inv_1 in H.
Qed.

Lemma startsWith_dotdot_join rest : startsWith ".." (join_slash (".." :: rest)) = true.
Proof. by destruct rest. Qed.

Lemma component_not_absolute d rest : component d → isAbsolute (join_slash (d :: rest)) = false.
Proof.
intros (Hf & Hne & _). destruct d as [|c d]; [done|].
assert (c ≠ slash) as Hc.
{ intros ->. apply Hf. simpl. apply list_elem_of_here. }
unfold join_slash. destruct rest; simpl; by destruct (Ascii.eqb_spec c slash).
Qed.

Lemma startsWith_dotdot_head d rest :
component d → startsWith ".." (join_slash (d :: rest)) = startsWith ".." d.
Proof.
intros (Hf & Hne & _). destruct rest as [|r rest]; [done|].
rewrite join_slash_cons by done. generalize (join_slash (r :: rest)). intros tl.
destruct d as [|c1 [|c2 d]]; [done| |].
- simpl. by destruct (Ascii.eqb "." c1).
- simpl. by destruct (Ascii.eqb "." c1), (Ascii.eqb "." c2).
Qed.

Lemma normalized_absolute_components p :
normalized_absolute p → ∃ segs, Forall component segs ∧ p = of_components segs.
Proof.
intros Hp. destruct (resolve_normal_form "/" [p]) as (segs & Hsegs & Heq).
- apply Exists_app. right. by apply Exists_cons_hd.
- exists segs. split; [done|]. by rewrite <- Hp.
Qed.

Lemma of_components_inj a b :
Forall component a → Forall component b → of_components a = of_components b → a = b.
Proof.
intros Ha Hb H. by rewrite <- (components_of_components a), <- (components_of_components b), H.
Qed.

Lemma resolvePath_cases cwd this userPath :
normalized_absolute (root this) →
let resolved := resolve cwd [root this; userPath] in
resolvePath cwd this userPath =
  if bool_decide (within (root this) resolved) && negb (dotdot_named (root this) resolved)
  then inr resolved
  else inl (outside_root_error userPath).
Proof.
intros Hroot. cbv zeta.
destruct (normalized_absolute_components _ Hroot) as (R & HR & HrootR).
destruct (resolve_normal_form cwd [root this; userPath]) as (Q & HQ & HresQ).
{ apply Exists_cons_hd. by rewrite HrootR. }
unfold resolvePath, dotdot_named. rewrite HresQ, HrootR.
rewrite (bool_decide_ext (within _ _) (R `prefix_of` Q))
  by (unfold within; by rewrite !components_of_components).
rewrite !components_of_components by done.
case_bool_decide as Heq.
{ apply of_components_inj in Heq; [|done..]. subst Q.
  rewrite bool_decide_eq_true_2 by done. by rewrite drop_all. }
unfold relative. rewrite bool_decide_eq_false_2 by done.
rewrite !resolve_of_components by done.
rewrite bool_decide_eq_false_2 by done.
rewrite !components_of_components by done.
destruct (strip_common_split R Q) as (common & HRc & HQc).
pose proof (strip_common_prefix R Q) as Hpre.
destruct (strip_common R Q) as [up down]. cbn [fst snd] in *.
destruct up as [|u up].
- rewrite app_nil_r in HRc. subst common.
  rewrite bool_decide_eq_true_2 by (by apply Hpre).
  rewrite HQc, drop_app_length. cbn [fmap list_fmap app andb].
  destruct down as [|d down].
  { rewrite app_nil_r in HQc. by subst Q. }
  assert (component d) as Hd.
  { rewrite HQc in HQ. apply Forall_app in HQ as [_ HQ]. by inversion HQ. }
  cbn [head]. rewrite startsWith_dotdot_head, component_not_absolute by done.
  rewrite orb_false_r. by destruct (startsWith ".." d).
- rewrite bool_decide_eq_false_2; [|intros H; by apply Hpre in H].
  cbn [fmap list_fmap app andb]. by rewrite startsWith_dotdot_join.
Qed.

Lemma resolvePath_confined cwd this userPath resolved :
normalized_absolute (root this) →
resolvePath cwd this userPath = inr resolved →
resolved = resolve cwd [root this; userPath] ∧ within (root this) resolved.
Proof.
intros Hroot. rewrite resolvePath_cases by done.
case_bool_decide as Hin; [|done]. destruct (dotdot_named _ _); [done|].
cbn [andb negb]. intros [= <-]. done.
Qed.

Lemma resolvePath_outside cwd this userPath :
normalized_absolute (root this) →
¬ within (root this) (resolve cwd [root this; userPath]) →
resolvePath cwd this userPath = inl (outside_root_error userPath).
Proof.
intros Hroot Hout. rewrite resolvePath_cases by done.
by rewrite bool_decide_eq_false_2 by done.
Qed.

Lemma new_LocalMCPServer_root cwd rootArg debugArg key connect :
isAbsolute cwd = true →
normalized_absolute (root (new_LocalMCPServer cwd rootArg debugArg key connect)).
Proof.
intros Hcwd. simpl. destruct (resolve_normal_form cwd [rootArg]) as (segs & Hsegs & ->).
- apply Exists_app. right. by apply Exists_cons_hd.
- by apply resolve_of_components.
Qed.

End PathFacts.

(** * Path confinement *)

(** [resolvePath] returns the joined and normalized path exactly when it is
    within the root and the entry of the root that leads to it is not named
    with two leading dots. *)
Lemma resolvePath_inr_iff cwd this userPath resolved :
  normalized_absolute (root this) →
  resolvePath cwd this userPath = inr resolved ↔
  resolved = Path.resolve cwd [root this; userPath]
  ∧ within (root this) resolved
  ∧ dotdot_named (root this) resolved = false.
Proof.
  intros Hroot. rewrite resolvePath_cases by done. split.
  - case_bool_decide as Hin; [|done].
    destruct (dotdot_named _ _) eqn:Hdots; [done|]. cbn [andb negb]. by intros [= <-].
  - intros (-> & Hin & ->). by rewrite bool_decide_eq_true_2.
Qed.

(** C1 — [resolvePath] is claimed to succeed exactly when the joined and
    normalized path is the root or lies below it.  For the root [/sandbox]
    and the input [..foo] the joined path [/sandbox/..foo] lies below the
    root, and [resolvePath] throws the out-of-root error all the same. *)
Theorem resolvePath_rejects_dotdot_named_entry :
  normalized_absolute (root sample_server)
  ∧ Path.resolve "/home/dev" [root sample_server; "..foo"] = "/sandbox/..foo"
  ∧ within (root sample_server) "/sandbox/..foo"
  ∧ resolvePath "/home/dev" sample_server "..foo" = inl (outside_root_error "..foo").
Proof.
  split_and!; [reflexivity|reflexivity| |reflexivity].
  apply (bool_decide_unpack _). reflexivity.
Qed.

(** * The tool handlers *)

Lemma typeof_string v : typeof v = "string" → ∃ s, v = Some (JStr s).
Proof. destruct v as [[]|]; try discriminate; eauto. Qed.

Lemma typeof_boolean v : typeof v = "boolean" → ∃ b, v = Some (JBool b).
Proof. destruct v as [[]|]; try discriminate; eauto. Qed.

Lemma typeof_number v : typeof v = "number" → ∃ m e, v = Some (JNum m e).
Proof. destruct v as [[]|]; try discriminate; eauto. Qed.

(** Runs a handler through its binds and branches. *)
Ltac chase :=
  unfold bind, lift, try_catch, throw, ret, log_io;
  repeat (case_match; simplify_eq; try done).

Section HandlerFacts.
Variable cwd : string.
Variable localeCompare : string → string → Z.
Variable this : LocalMCPServer.

Lemma tools_get_inv name tool :
  tools_get cwd localeCompare this name = Some tool →
  ∃ key, name = Some (JStr key) ∧ (key, tool) ∈ tools cwd localeCompare this.
Proof.
  destruct name as [[| | |key| |]|]; try done. unfold tools_get.
  intros H. apply fmap_Some in H as ([i [k t]] & Hfind & ->).
  apply list_find_Some in Hfind as (Hi & Hk & _). simpl in Hk. subst k.
  exists key. split; [done|]. by eapply list_elem_of_lookup_2.
Qed.

Lemma tools_get_cases name tool :
  tools_get cwd localeCompare this name = Some tool →
  (name = Some (JStr "read_file") ∧ tool = read_file_tool cwd this)
  ∨ (name = Some (JStr "write_file") ∧ tool = write_file_tool cwd this)
  ∨ (name = Some (JStr "list_dir") ∧ tool = list_dir_tool cwd localeCompare this)
  ∨ (name = Some (JStr "call_gemini") ∧ tool = call_gemini_tool this).
Proof.
  intros H. apply tools_get_inv in H as (key & -> & H). unfold tools in H.
  repeat (apply elem_of_cons in H as [H|H]; [simplify_eq; tauto|]).
  by apply elem_of_nil in H.
Qed.

(** What each input schema declares. *)
Lemma declared_read_file field ty :
  declared_type (read_file_tool cwd this) field = Some ty → field = "path" ∧ ty = "string".
Proof. unfold declared_type. simpl. repeat case_bool_decide; naive_solver. Qed.

Lemma declared_write_file field ty :
  declared_type (write_file_tool cwd this) field = Some ty →
  (field = "path" ∧ ty = "string") ∨ (field = "content" ∧ ty = "string")
  ∨ (field = "create_parents" ∧ ty = "boolean").
Proof. unfold declared_type. simpl. repeat case_bool_decide; naive_solver. Qed.

Lemma declared_list_dir field ty :
  declared_type (list_dir_tool cwd localeCompare this) field = Some ty →
  field = "path" ∧ ty = "string".
Proof. unfold declared_type. simpl. repeat case_bool_decide; naive_solver. Qed.

Lemma declared_call_gemini field ty :
  declared_type (call_gemini_tool this) field = Some ty →
  (field = "prompt" ∧ ty = "string") ∨ (field = "system_prompt" ∧ ty = "string")
  ∨ (field = "temperature" ∧ ty = "number") ∨ (field = "top_p" ∧ ty = "number").
Proof. unfold declared_type. simpl. repeat case_bool_decide; naive_solver. Qed.

Lemma offending_required tool args field ty :
  declared_type tool field = Some ty → is_required tool field = true →
  typeof (get args field) ≠ ty → offending tool args field.
Proof. intros Hd Hr Hty. exists ty. split; [done|]. by destruct (get args field). Qed.

Lemma offending_present tool args field ty v :
  declared_type tool field = Some ty → get args field = Some v →
  typeof (Some v) ≠ ty → offending tool args field.
Proof. intros Hd Hv Hty. exists ty. split; [done|]. by rewrite Hv. Qed.

Lemma wrong_type_offending tool args field :
  wrong_type tool args field → offending tool args field.
Proof. intros (ty & v & Hd & Hv & Hty). by eapply offending_present. Qed.

(** None of the four handlers sets [isError] on what it returns. *)
Lemma handleReadFile_isError args w result w' :
  handleReadFile cwd this args w = (inr result, w') → isError result = None.
Proof. unfold handleReadFile, Fs.readFile. chase. by intros [= <- _]. Qed.

Lemma handleWriteFile_isError args w result w' :
  handleWriteFile cwd this args w = (inr result, w') → isError result = None.
Proof. unfold handleWriteFile, Fs.writeFile. chase; by intros [= <- _]. Qed.

Lemma handleListDir_isError args w result w' :
  handleListDir cwd localeCompare this args w = (inr result, w') → isError result = None.
Proof. unfold handleListDir, Fs.readdir. chase; by intros [= <- _]. Qed.

Lemma handleCallGemini_isError args w result w' :
  handleCallGemini this args w = (inr result, w') → isError result = None.
Proof. unfold handleCallGemini, generate. chase; by intros [= <- _]. Qed.

Lemma handler_isError name tool args w result w' :
  tools_get cwd localeCompare this name = Some tool →
  Tool.handler tool args w = (inr result, w') → isError result = None.
Proof.
  intros H. apply tools_get_cases in H as [[_ ->]|[[_ ->]|[[_ ->]|[_ ->]]]].
  - apply handleReadFile_isError.
  - apply handleWriteFile_isError.
  - apply handleListDir_isError.
  - apply handleCallGemini_isError.
Qed.

(** C4, amended — When an argument that the schema of a
    registered tool declares is present with a value of another type
    ([null] included, except that [list_dir] reads a [null] path as no path
    and takes the default), the handler throws before it touches the file
    system or the network.  The error is the invalid-argument error naming
    a field that is wrongly typed or required and missing; only
    [call_gemini] on a server without a client throws the not-configured
    error instead, before it looks at its arguments. *)
Theorem ill_typed_arguments_rejected (name : string) (tool : Tool.t) (args : obj)
    (field : string) (w : world) :
  tools_get cwd localeCompare this (Some (JStr name)) = Some tool →
  wrong_type tool args field →
  (name = "list_dir" → get args "path" ≠ Some JNull) →
  ∃ message,
    Tool.handler tool args w = (inl (MCPServerError message), w)
    ∧ ((name = "call_gemini" ∧ gemini this = None ∧ message = not_configured_message)
       ∨ ∃ f, offending tool args f ∧ names_field message f).
Proof.
  intros Htool (ty & v & Hty & Hv & Hbad) Hnull.
  apply tools_get_cases in Htool as [[[= ->] ->]|[[[= ->] ->]|[[[= ->] ->]|[[= ->] ->]]]].
  - apply declared_read_file in Hty as [-> ->].
    change (Tool.handler _) with (handleReadFile cwd this).
    unfold handleReadFile. rewrite Hv, bool_decide_eq_true_2 by done.
    eexists. split; [done|]. right. exists "path". split; [|done].
    by eapply offending_present.
  - change (Tool.handler _) with (handleWriteFile cwd this). unfold handleWriteFile.
    case_bool_decide as Hpath.
    { eexists. split; [done|]. right. exists "path". split; [|done].
      by eapply offending_required. }
    case_bool_decide as Hcontent.
    { eexists. split; [done|]. right. exists "content". split; [|done].
      by eapply offending_required. }
    case_bool_decide as Hparents.
    { eexists. split; [done|]. right. exists "create_parents". split; [|done].
      destruct (get args "create_parents") as [cp|] eqn:Hcp; [|done].
      by eapply offending_present. }
    apply declared_write_file in Hty as [[-> ->]|[[-> ->]|[-> ->]]]; rewrite Hv in *; done.
  - apply declared_list_dir in Hty as [-> ->].
    change (Tool.handler _) with (handleListDir cwd localeCompare this).
    unfold handleListDir. rewrite Hv.
    assert (v ≠ JNull) as Hv' by (intros ->; by apply Hnull).
    destruct v; try done; eexists; (split; [done|]); right; exists "path";
      (split; [|done]); by eapply offending_present.
  - change (Tool.handler _) with (handleCallGemini this).
    unfold handleCallGemini. destruct (gemini this) as [client|]; [|by eexists; split; [|left]].
    case_bool_decide as Hprompt.
    { eexists. split; [done|]. right. exists "prompt". split; [|done].
      by eapply offending_required. }
    case_bool_decide as Hsystem.
    { eexists. split; [done|]. right. exists "system_prompt". split; [|done].
      destruct Hsystem as [Hs1 Hs2].
      destruct (get args "system_prompt") as [sp|] eqn:Hsp; [|done].
      by eapply offending_present. }
    case_bool_decide as Htemp.
    { eexists. split; [done|]. right. exists "temperature". split; [|done].
      destruct Htemp as [Hs1 Hs2].
      destruct (get args "temperature") as [sp|] eqn:Hsp; [|done].
      by eapply offending_present. }
    case_bool_decide as Htop.
    { eexists. split; [done|]. right. exists "top_p". split; [|done].
      destruct Htop as [Hs1 Hs2].
      destruct (get args "top_p") as [sp|] eqn:Hsp; [|done].
      by eapply offending_present. }
    apply declared_call_gemini in Hty as [[-> ->]|[[-> ->]|[[-> ->]|[-> ->]]]];
      rewrite Hv in *; [done| | |].
    + apply not_and_l in Hsystem as [?|?]; [by destruct H|]. done.
    + apply not_and_l in Htemp as [?|?]; [by destruct H|]. done.
    + apply not_and_l in Htop as [?|?]; [by destruct H|]. done.
Qed.

(** C7 — A [write_file] call with a wrongly typed argument, or with a path
    that resolves outside the root, throws and leaves the world as it was:
    no file is written, no directory is made, nothing is even asked of the
    file system. *)
Theorem write_file_rejects_without_effect (args : obj) (w : world) :
  normalized_absolute (root this) →
  typeof (get args "path") ≠ "string"
  ∨ typeof (get args "content") ≠ "string"
  ∨ (∃ v, get args "create_parents" = Some v ∧ typeof (Some v) ≠ "boolean")
  ∨ (∃ p, get args "path" = Some (JStr p)
          ∧ ¬ within (root this) (Path.resolve cwd [root this; p])) →
  ∃ message, handleWriteFile cwd this args w = (inl (MCPServerError message), w).
Proof.
  intros root_ok Hbad. unfold handleWriteFile.
  case_bool_decide as Hpath; [by eexists|].
  case_bool_decide as Hcontent; [by eexists|].
  case_bool_decide as Hparents; [by eexists|].
  destruct Hbad as [?|[?|[(v & Hv & Hty)|(p & Hp & Hout)]]]; [done|done| |].
  - rewrite Hv in Hparents. done.
  - rewrite Hp. cbn [the_string]. unfold bind, lift.
    rewrite resolvePath_outside by done. by eexists.
Qed.


End HandlerFacts.

(** * Directory listings *)




Section ListDir.
Variable cwd : string.
Variable localeCompare : string → string → Z.
Variable this : LocalMCPServer.

(** [localeCompare] is a consistent comparison: swapping the arguments
    flips the sign, and "not after" is transitive. *)
Hypothesis localeCompare_antisym :
  ∀ a b, Z.sgn (localeCompare b a) = - Z.sgn (localeCompare a b).
Hypothesis localeCompare_trans :
  ∀ a b c, localeCompare a b ≤ 0 → localeCompare b c ≤ 0 → localeCompare a c ≤ 0.








End ListDir.

(** * Requests *)

Section RequestFacts.
Variable cwd : string.
Variable localeCompare : string → string → Z.
Variable Number_toString : Z → Z → string.
Variable this : LocalMCPServer.

Lemma jsonrpcResult_success id result : is_success (jsonrpcResult id result).
Proof. split; [by eexists|done]. Qed.

Lemma jsonrpcError_protocol_error id code message :
  is_protocol_error (jsonrpcError id code message) code.
Proof. done. Qed.



(** C3 — A [tools/call] for a registered tool always comes back as a
    successful response, with a [result] and no [error]: when the handler
    throws, the content is the error message (behind ["Tool failed: "] for
    an error that is not the server's own) and [isError] is true; when it
    returns, the content is its text and [isError] is false. *)
Theorem tools_call_reports_handler_outcome (id params : JSON) (tool : Tool.t)
    (args : obj) (w : world) :
  tools_get cwd localeCompare this (prop params "name") = Some tool →
  default (JObj []) (prop params "arguments") = JObj args →
  is_success
    (handleRequest cwd localeCompare Number_toString this id (JStr "tools/call") params w).1
  ∧ match Tool.handler tool args w with
    | (inl (MCPServerError message), w') =>
        handleRequest cwd localeCompare Number_toString this id (JStr "tools/call") params w
        = (jsonrpcResult id (toolEnvelope message true), w')
    | (inl (JsError _ message), w') =>
        handleRequest cwd localeCompare Number_toString this id (JStr "tools/call") params w
        = (jsonrpcResult id (toolEnvelope ("Tool failed: " +:+ message) true), w')
    | (inr toolResult, w') =>
        handleRequest cwd localeCompare Number_toString this id (JStr "tools/call") params w
        = (jsonrpcResult id (toolEnvelope (text toolResult) false), w')
    end.
Proof.
  intros Htool Hargs. unfold handleRequest. cbn [is_method].
  rewrite !bool_decide_eq_false_2 by done. rewrite bool_decide_eq_true_2 by done.
  rewrite Htool, Hargs.
  destruct (Tool.handler tool args w) as [[[message|code message]|toolResult] w'] eqn:Hrun;
    (split; [apply jsonrpcResult_success|]); [done..|].
  by rewrite (handler_isError _ _ _ _ _ _ _ _ _ Htool Hrun).
Qed.


End RequestFacts.

(** * The session loop *)

Section SessionFacts.
Variable cwd : string.
Variable JSON_parse : string → option JSON.
Variable trim : string → string.
Variable localeCompare : string → string → Z.
Variable Number_toString : Z → Z → string.
Variable this : LocalMCPServer.



(** What [expected_ids] asks for, case by case. *)
Lemma expected_ids_request rawLine message method id :
  trim rawLine ≠ "" → JSON_parse (trim rawLine) = Some (JObj message) →
  get message "method" = Some method → get message "id" = Some id →
  expected_ids JSON_parse trim rawLine = [id].
Proof.
  intros Hline Hparse Hmethod Hid. unfold expected_ids, has.
  rewrite bool_decide_eq_false_2, Hparse, Hmethod, Hid by done.
  by rewrite bool_decide_eq_true_2.
Qed.

Lemma expected_ids_no_method rawLine message :
  JSON_parse (trim rawLine) = Some (JObj message) → get message "method" = None →
  expected_ids JSON_parse trim rawLine = [].
Proof.
  intros Hparse Hmethod. unfold expected_ids, has.
  case_bool_decide; [done|]. rewrite Hparse, Hmethod.
  by rewrite bool_decide_eq_false_2 by (by intros [? ?]).
Qed.


(** C6 — A line that is not empty once trimmed and that [JSON.parse]
    rejects is answered with the error -32700 under the id [null], and the
    session goes on with the lines after it. *)
Theorem parse_failure_answered_and_session_continues (rawLine : string)
    (rest : list string) (w : world) :
  trim rawLine ≠ "" →
  JSON_parse (trim rawLine) = None →
  run cwd JSON_parse trim localeCompare Number_toString this (rawLine :: rest) w
  = (parseErrorResponse
       :: (run cwd JSON_parse trim localeCompare Number_toString this rest w).1,
     (run cwd JSON_parse trim localeCompare Number_toString this rest w).2)
  ∧ response_id parseErrorResponse = Some JNull
  ∧ is_protocol_error parseErrorResponse (-32700).
Proof.
  intros Hline Hparse. split; [|done].
  cbn [run]. unfold handleLine. rewrite bool_decide_eq_false_2, Hparse by done.
  by destruct (run _ _ _ _ _ _ _ _).
Qed.


End SessionFacts.

(** * More on paths and confinement *)

Section MorePathFacts.
Import Path.

Lemma normalize_go_app b kept l1 l2 :
  normalize_go b kept (l1 ++ l2) = normalize_go b (rev (normalize_go b kept l1)) l2.
Proof.
  revert kept. induction l1 as [|p l1 IH]; intros kept.
  - cbn [app normalize_go]. by rewrite rev_involutive.
  - cbn [app normalize_go]. repeat case_match; apply IH.
Qed.

Lemma components_below segs rest :
  Forall component segs →
  components (of_components segs +:+ "/" +:+ rest)
  = normalize_go false (rev segs) (split_slash rest).
Proof.
  intros H. destruct (split_join_or_empty segs H) as [Hall Hfilter].
  unfold components, of_components.
  change (("/" +:+ join_slash segs) +:+ "/" +:+ rest)
    with ("/" +:+ join_slash segs +:+ "/" +:+ rest).
  rewrite split_slash_root, split_slash_app.
  change ("" :: split_slash (join_slash segs) ++ split_slash rest)
    with (("" :: split_slash (join_slash segs)) ++ split_slash rest).
  rewrite normalize_go_app. f_equal. f_equal.
  rewrite normalize_go_clean by (constructor; auto).
  cbn [rev app]. rewrite filter_cons_False by (intros Hn; by apply Hn). done.
Qed.

(** A relative path joined to a normalized root is normalized from the
    root's components on. *)
Lemma resolve_below cwd segs p :
  Forall component segs → p ≠ "" → isAbsolute p = false →
  resolve cwd [of_components segs; p]
  = of_components (normalize_go false (rev segs) (split_slash (p +:+ "/" +:+ ""))).
Proof.
  intros H Hp Hrel. unfold resolve. cbn [rev app resolve_loop].
  rewrite bool_decide_eq_false_2 by done. rewrite Hrel.
  rewrite bool_decide_eq_false_2 by done.
  change (isAbsolute (of_components segs)) with true. cbv iota. cbn [negb].
  unfold normalizeString. fold (components (of_components segs +:+ "/" +:+ p +:+ "/" +:+ "")).
  by rewrite components_below.
Qed.

Lemma resolve_empty cwd segs :
  Forall component segs → resolve cwd [of_components segs; ""] = of_components segs.
Proof.
  intros H. rewrite <- (resolve_of_components cwd segs H) at 2. done.
Qed.

(** An absolute path makes [resolve] forget what stands before it. *)
Lemma resolve_absolute_last cwd first p :
  isAbsolute p = true → resolve cwd [first; p] = resolve cwd [p].
Proof.
  intros Hp. unfold resolve. cbn [rev app resolve_loop].
  rewrite bool_decide_eq_false_2 by (by intros ->). by rewrite Hp.
Qed.






Lemma list_ascii_app a b :
  String.list_ascii_of_string (a +:+ b)
  = String.list_ascii_of_string a ++ String.list_ascii_of_string b.
Proof. induction a as [|c a IH]; [done|]. simpl. by rewrite IH. Qed.

Lemma substring_prefix a b : String.substring 0 (String.length a) (a +:+ b) = a.
Proof.
  induction a as [|c a IH]; simpl.
  - by destruct b.
  - by rewrite IH.
Qed.

Lemma append_assoc (a b c : string) : (a +:+ b) +:+ c = a +:+ (b +:+ c).
Proof.
  induction a as [|x a IH]; [done|].
  change (String x ((a +:+ b) +:+ c) = String x (a +:+ b +:+ c)). by f_equal.
Qed.

Lemma join_slash_snoc parts a :
  parts ≠ [] → join_slash (parts ++ [a]) = join_slash parts +:+ "/" +:+ a.
Proof.
  induction parts as [|p parts IH]; [done|]. intros _.
  destruct parts as [|q parts]; [done|].
  change ((p :: q :: parts) ++ [a]) with (p :: (q :: parts) ++ [a]).
  rewrite (join_slash_cons p ((q :: parts) ++ [a])) by done.
  rewrite IH by done. rewrite (join_slash_cons p (q :: parts)) by done.
  by rewrite !append_assoc.
Qed.

Lemma dirname_scan_name l before :
  slash ∉ l → dirname_scan (l ++ slash :: before) false = Some (length before).
Proof.
  induction l as [|c l IH]; intros Hl; [done|].
  apply not_elem_of_cons in Hl as [Hc Hl]. cbn.
  destruct (Ascii.eqb_spec c slash); [congruence|]. by apply IH.
Qed.

Lemma dirname_scan_first l before :
  l ≠ [] → slash ∉ l → dirname_scan (l ++ slash :: before) true = Some (length before).
Proof.
  destruct l as [|c l]; [done|]. intros _ Hl.
  apply not_elem_of_cons in Hl as [Hc Hl]. cbn.
  destruct (Ascii.eqb_spec c slash); [congruence|]. by apply dirname_scan_name.
Qed.

Lemma dirname_scan_none l matched : slash ∉ l → dirname_scan l matched = None.
Proof.
  revert matched. induction l as [|c l IH]; intros matched Hl; [done|].
  apply not_elem_of_cons in Hl as [Hc Hl]. cbn.
  destruct (Ascii.eqb_spec c slash); [congruence|]. by apply IH.
Qed.

Lemma length_list_ascii s : length (String.list_ascii_of_string s) = String.length s.
Proof. induction s; simpl; congruence. Qed.

Lemma dirname_absolute rest :
  dirname ("/" +:+ rest)
  = match dirname_scan (rev (String.list_ascii_of_string rest)) true with
    | None => "/"
    | Some k => if bool_decide (k = 0%nat) then "//" else "/" +:+ String.substring 0 k rest
    end.
Proof. reflexivity. Qed.

Lemma slash_free_rev s : slash_free s → slash ∉ rev (String.list_ascii_of_string s).
Proof.
  unfold slash_free. intros H Hin. apply H.
  apply list_elem_of_In, in_rev. by apply list_elem_of_In.
Qed.

(** [dirname] of a normalized absolute path drops its last component. *)
Lemma dirname_of_components segs :
  Forall component segs → dirname (of_components segs) = of_components (removelast segs).
Proof.
  intros H. destruct segs as [|s segs _] using rev_ind; [done|].
  rewrite removelast_last.
  apply Forall_app in H as [Hsegs Hs]. inversion Hs as [|? ? (Hfree & Hne & _) _]; subst.
  unfold of_components. rewrite dirname_absolute.
  destruct segs as [|q segs].
  - cbn [app]. change (join_slash [s]) with s.
    by rewrite dirname_scan_none by by apply slash_free_rev.
  - rewrite join_slash_snoc by done. set (dir := join_slash (q :: segs)).
    assert (rev (String.list_ascii_of_string (dir +:+ "/" +:+ s))
            = rev (String.list_ascii_of_string s)
              ++ slash :: rev (String.list_ascii_of_string dir)) as ->.
    { rewrite !list_ascii_app, !rev_app_distr.
      change (String.list_ascii_of_string "/") with [slash]. cbn [rev app].
      by rewrite <- app_assoc. }
    rewrite dirname_scan_first.
    + rewrite length_rev, length_list_ascii.
      assert (String.length dir ≠ 0%nat) as Hlen.
      { unfold dir. inversion Hsegs as [|? ? (_ & Hq & _) _]; subst.
        destruct q; [done|]. by destruct segs. }
      rewrite bool_decide_eq_false_2 by done.
      by rewrite substring_prefix.
    + destruct s; [done|]. simpl. by destruct (rev _).
    + by apply slash_free_rev.
Qed.

Section ResolvePathFacts.
Variable cwd : string.
Variable this : LocalMCPServer.

(** What [resolvePath] returns is the root's components followed by
    further ones. *)
Lemma resolvePath_normal userPath resolved :
  normalized_absolute (root this) →
  resolvePath cwd this userPath = inr resolved →
  ∃ R down, Forall component R ∧ Forall component down
            ∧ root this = of_components R ∧ resolved = of_components (R ++ down).
Proof.
  intros Hroot Hres.
  destruct (normalized_absolute_components _ Hroot) as (R & HR & HrootR).
  destruct (resolve_normal_form cwd [root this; userPath]) as (Q & HQ & HresQ).
  { apply Exists_cons_hd. by rewrite HrootR. }
  apply resolvePath_confined in Hres as [-> Hin]; [|done].
  unfold within in Hin. rewrite HresQ, HrootR in Hin.
  rewrite !components_of_components in Hin by done.
  destruct Hin as [down ->]. apply Forall_app in HQ as [_ Hdown].
  by exists R, down.
Qed.

(** The directory of an accepted path is within the root, unless the path
    is the root itself. *)
Lemma dirname_reach userPath resolved :
  normalized_absolute (root this) →
  resolvePath cwd this userPath = inr resolved →
  within (root this) (dirname resolved) ∨ dirname resolved = dirname (root this).
Proof.
  intros Hroot Hres.
  destruct (resolvePath_normal _ _ Hroot Hres) as (R & down & HR & Hdown & HrootR & ->).
  destruct down as [|d down _] using rev_ind.
  { right. by rewrite app_nil_r, HrootR. }
  left. rewrite dirname_of_components by (apply Forall_app; done).
  rewrite app_assoc, removelast_last.
  apply Forall_app in Hdown as [Hdown _].
  unfold within. rewrite HrootR, !components_of_components by (done || by apply Forall_app).
  by apply prefix_app_r.
Qed.

(** X1 — With a normalized absolute root, [resolvePath] returns the joined
    and normalized path exactly when that path is the root or below it and
    the entry of the root on the way to it has no name that begins with two
    dots; in every other case it throws the outside-of-root error, quoting
    the path as the caller gave it. *)
Theorem resolvePath_accepts_exactly (userPath : string) :
  normalized_absolute (root this) →
  let resolved := resolve cwd [root this; userPath] in
  (within (root this) resolved ∧ dotdot_named (root this) resolved = false
   → resolvePath cwd this userPath = inr resolved)
  ∧ (¬ (within (root this) resolved ∧ dotdot_named (root this) resolved = false)
     → resolvePath cwd this userPath = inl (outside_root_error userPath)).
Proof.
  intros Hroot resolved. rewrite resolvePath_cases by done. fold resolved. split.
  - intros [Hin ->]. by rewrite bool_decide_eq_true_2.
  - intros Hnot. case_bool_decide as Hin; [|done].
    destruct (dotdot_named _ _); [done|]. by destruct Hnot.
Qed.

(** X2 — [resolvePath] is idempotent: a path it has returned is accepted
    again when given back to it, and comes back unchanged. *)
Theorem resolvePath_idempotent (userPath resolved : string) :
  normalized_absolute (root this) →
  resolvePath cwd this userPath = inr resolved →
  resolvePath cwd this resolved = inr resolved.
Proof.
  intros Hroot Hres.
  destruct (normalized_absolute_components _ Hroot) as (R & HR & HrootR).
  assert (∃ Q, Forall component Q ∧ resolved = of_components Q) as (Q & HQ & ->).
  { destruct (resolve_normal_form cwd [root this; userPath]) as (Q & HQ & HresQ).
    { apply Exists_cons_hd. by rewrite HrootR. }
    apply resolvePath_confined in Hres as [-> _]; [|done]. eauto. }
  rewrite resolvePath_cases in Hres by done. rewrite resolvePath_cases by done.
  rewrite resolve_absolute_last, resolve_of_components by done.
  case_bool_decide as Hin; [|done]. destruct (dotdot_named _ _) eqn:Hd; [done|].
  cbn [andb negb] in *. injection Hres as Hres.
  rewrite Hres in Hin, Hd. rewrite bool_decide_eq_true_2 by done. by rewrite Hd.
Qed.

(** X3 — The empty path and ["."] both resolve to the root itself. *)
Theorem resolvePath_empty_and_dot :
  normalized_absolute (root this) →
  resolvePath cwd this "" = inr (root this) ∧ resolvePath cwd this "." = inr (root this).
Proof.
  intros Hroot.
  destruct (normalized_absolute_components _ Hroot) as (R & HR & HrootR).
  unfold resolvePath. rewrite HrootR.
  rewrite resolve_empty by done.
  rewrite resolve_below by done. cbn [split_slash]. simpl split_slash.
  cbn [normalize_go]. simpl. rewrite rev_involutive.
  by rewrite bool_decide_eq_true_2.
Qed.

End ResolvePathFacts.
End MorePathFacts.

(** * What a request does to the world *)

Section EffectFacts.
Variable cwd : string.
Variable localeCompare : string → string → Z.
Variable Number_toString : Z → Z → string.
Variable this : LocalMCPServer.

Lemma handleReadFile_world args w :
  (handleReadFile cwd this args w).2 = w
  ∨ ∃ resolved,
      resolvePath cwd this (the_string (get args "path")) = inr resolved
      ∧ (handleReadFile cwd this args w).2
        = World (files w) (io_log w ++ [FsReadFile resolved]).
Proof.
  unfold handleReadFile. case_bool_decide; [by left|].
  unfold bind, lift. destruct (resolvePath _ _ _) as [e|resolved] eqn:Hres; [by left|].
  right. exists resolved. split; [done|].
  unfold try_catch, Fs.readFile, bind, log_io, throw, ret. cbn [files io_log].
  repeat case_match; simplify_eq; done.
Qed.

Lemma handleListDir_world args w :
  (handleListDir cwd localeCompare this args w).2 = w
  ∨ ∃ userPath resolved,
      resolvePath cwd this userPath = inr resolved
      ∧ (handleListDir cwd localeCompare this args w).2
        = World (files w) (io_log w ++ [FsReaddir resolved]).
Proof.
  unfold handleListDir. case_bool_decide; [by left|].
  unfold bind, lift. destruct (resolvePath _ _ _) as [e|resolved] eqn:Hres; [by left|].
  right. eexists _, resolved. split; [exact Hres|].
  unfold try_catch, Fs.readdir, bind, log_io, throw, ret. cbn [files io_log].
  repeat case_match; simplify_eq; done.
Qed.

Lemma handleCallGemini_world args w :
  (handleCallGemini this args w).2 = w
  ∨ ∃ request,
      (handleCallGemini this args w).2
      = World (files w) (io_log w ++ [NetGenerate request]).
Proof.
  unfold handleCallGemini. destruct (gemini this) as [client|]; [|by left].
  do 4 (case_bool_decide; [by left|]).
  unfold generate, bind. destruct (negb _ || _); [by left|].
  right.
  match goal with |- context [log_io (NetGenerate ?r)] => exists r; generalize r end.
  intros request.
  unfold try_catch, bind, log_io, throw, ret. cbn [files io_log].
  repeat case_match; simplify_eq; done.
Qed.

Lemma handleWriteFile_world args w :
  (handleWriteFile cwd this args w).2 = w
  ∨ ∃ resolved,
      resolvePath cwd this (the_string (get args "path")) = inr resolved
      ∧ ∃ fs new,
          (handleWriteFile cwd this args w).2 = World fs (io_log w ++ new)
          ∧ (new = [FsMkdir (Path.dirname resolved)]
             ∨ new = [FsMkdir (Path.dirname resolved);
                      FsWriteFile resolved (the_string (get args "content"))]
             ∨ new = [FsWriteFile resolved (the_string (get args "content"))]).
Proof.
  unfold handleWriteFile. do 3 (case_bool_decide; [by left|]).
  unfold bind, lift. destruct (resolvePath _ _ _) as [e|resolved] eqn:Hres; [by left|].
  right. exists resolved. split; [done|].
  unfold try_catch, Fs.writeFile, Fs.mkdir_recursive, bind, log_io, throw, ret.
  cbn [files io_log].
  repeat case_match; simplify_eq; cbn [snd files io_log];
    eexists _, _; (split; [try rewrite <- app_assoc; reflexivity|]); cbn [app]; auto.
Qed.

(** A request leaves the world alone, or is a [tools/call] that runs the
    handler of a registered tool. *)
Lemma handleRequest_world id method params w :
  (handleRequest cwd localeCompare Number_toString this id method params w).2 = w
  ∨ ∃ tool args,
      method = JStr "tools/call"
      ∧ tools_get cwd localeCompare this (prop params "name") = Some tool
      ∧ (handleRequest cwd localeCompare Number_toString this id method params w).2
        = (Tool.handler tool args w).2.
Proof.
  unfold handleRequest.
  destruct (is_method method "initialize"); [by left|].
  destruct (is_method method "tools/list"); [by left|].
  destruct (is_method method "tools/call") eqn:Hcall.
  2:{ by repeat case_match; left. }
  destruct method as [| | |m| |]; try done. cbn in Hcall.
  apply bool_decide_eq_true in Hcall as ->.
  destruct (tools_get _ _ _ _) as [tool|] eqn:Htool; [|by left].
  destruct (default _ _) as [| | | | |args]; try by left.
  right. exists tool, args. split_and!; [done..|].
  by destruct (Tool.handler tool args w) as [[e|r] w'].
Qed.

Lemma handleRequest_no_effect id method params w :
  method ≠ JStr "tools/call" →
  (handleRequest cwd localeCompare Number_toString this id method params w).2 = w.
Proof.
  intros Hmethod.
  destruct (handleRequest_world id method params w) as [?|(? & ? & ? & _)]; done.
Qed.

(** Whatever the request, the calls it makes are appended to the log and
    stay where the server may reach. *)
Lemma handleRequest_log id method params w :
  normalized_absolute (root this) →
  ∃ new,
    io_log (handleRequest cwd localeCompare Number_toString this id method params w).2
    = io_log w ++ new
    ∧ Forall (reach (root this)) new.
Proof.
  intros Hroot.
  destruct (handleRequest_world id method params w)
    as [->|(tool & args & _ & Htool & ->)].
  { exists []. by rewrite app_nil_r. }
  apply tools_get_cases in Htool as [[_ ->]|[[_ ->]|[[_ ->]|[_ ->]]]].
  - change (Tool.handler _) with (handleReadFile cwd this).
    destruct (handleReadFile_world args w) as [->|(resolved & Hres & ->)].
    { exists []. by rewrite app_nil_r. }
    eexists. split; [done|]. repeat constructor. by eapply resolvePath_confined.
  - change (Tool.handler _) with (handleWriteFile cwd this).
    destruct (handleWriteFile_world args w)
      as [->|(resolved & Hres & fs & new & -> & Hnew)].
    { exists []. by rewrite app_nil_r. }
    pose proof (dirname_reach _ _ _ _ Hroot Hres) as Hdir.
    apply resolvePath_confined in Hres as [_ Hin]; [|done].
    exists new. split; [done|].
    destruct Hnew as [->|[->| ->]]; rewrite ?Forall_cons, Forall_nil; cbn; tauto.
  - change (Tool.handler _) with (handleListDir cwd localeCompare this).
    destruct (handleListDir_world args w) as [->|(userPath & resolved & Hres & ->)].
    { exists []. by rewrite app_nil_r. }
    eexists. split; [done|]. repeat constructor. by eapply resolvePath_confined.
  - change (Tool.handler _) with (handleCallGemini this).
    destruct (handleCallGemini_world args w) as [->|(request & ->)].
    { exists []. by rewrite app_nil_r. }
    eexists. split; [done|]. by repeat constructor.
Qed.


(** X5 — Only [write_file] changes files: a request whose tool name is
    anything else leaves every file and directory as it was. *)
Theorem only_write_file_changes_files (id method params : JSON) (w : world) :
  prop params "name" ≠ Some (JStr "write_file") →
  files (handleRequest cwd localeCompare Number_toString this id method params w).2
  = files w.
Proof.
  intros Hname.
  destruct (handleRequest_world id method params w) as [->|(tool & args & _ & Htool & ->)];
    [done|].
  apply tools_get_cases in Htool as [[_ ->]|[[? _]|[[_ ->]|[_ ->]]]]; [|done|..].
  - change (Tool.handler _) with (handleReadFile cwd this).
    by destruct (handleReadFile_world args w) as [->|(? & _ & ->)].
  - change (Tool.handler _) with (handleListDir cwd localeCompare this).
    by destruct (handleListDir_world args w) as [->|(? & ? & _ & ->)].
  - change (Tool.handler _) with (handleCallGemini this).
    by destruct (handleCallGemini_world args w) as [->|(? & ->)].
Qed.

End EffectFacts.

(** * The outcomes of the tools *)

Section OutcomeFacts.
Variable cwd : string.
Variable localeCompare : string → string → Z.
Variable this : LocalMCPServer.




(** X8 — [list_dir] reads only: asked again in the world it left behind,
    it gives the same answer. *)
Theorem list_dir_twice (args : obj) (w w1 : world) (outcome : exn + ToolResult) :
  handleListDir cwd localeCompare this args w = (outcome, w1) →
  (handleListDir cwd localeCompare this args w1).1 = outcome.
Proof.
  unfold handleListDir. case_bool_decide; [by intros [= <- <-]|].
  unfold bind, lift. destruct (resolvePath _ _ _) as [e|resolved]; [by intros [= <- <-]|].
  unfold try_catch, Fs.readdir, bind, log_io, ret, throw. cbn [files io_log].
  unfold Fs.missing.
  destruct (files w !! Path.components resolved) as [[]|] eqn:Hat;
    try destruct (existsb _ _) eqn:Hfile;
    simpl; intros [= <- <-]; cbn [files io_log]; rewrite Hat, ?Hfile; done.
Qed.

(** Once the arguments have passed the type checks, [write_file] is the
    resolution of the path, the optional [mkdir] and the write. *)
Lemma handleWriteFile_checked args p s parents w :
  write_args args p s parents →
  handleWriteFile cwd this args w
  = bind (lift (resolvePath cwd this p))
      (λ resolved,
         bind (if parents then Fs.mkdir_recursive (Path.dirname resolved) else ret tt)
           (λ _,
              try_catch
                (bind (Fs.writeFile resolved s)
                   (λ _, ret {| text := "Wrote " +:+ Path.relative cwd (root this) resolved;
                                isError := None |}))
                (λ error,
                   if bool_decide (exn_code error = Some "EISDIR") then
                     throw (MCPServerError ("Cannot write to directory path: " +:+ p))
                   else
                     throw (MCPServerError
                              ("Failed to write file " +:+ p +:+ ": "
                               +:+ exn_message error))))) w.
Proof.
  intros (Hp & Hs & Hparents). unfold handleWriteFile.
  rewrite Hp, Hs, Hparents. cbn [typeof the_string truthy].
  by rewrite !bool_decide_eq_false_2 by (intros H; by apply H).
Qed.


Lemma mkdir_steps_preserve (p : string) (target : list string) (ks : list (list string))
    (fs fs' : filesystem) (key : list string) (node : inode) :
  foldl (Fs.mkdir_step p target) (inr fs) ks = inr fs' →
  fs !! key = Some node → fs' !! key = Some node.
Proof.
  revert fs. induction ks as [|k keys IH]; intros fs Hfold Hkey; cbn in Hfold.
  { by simplify_eq. }
  destruct (fs !! k) as [[]|] eqn:Hk.
  - clear IH. exfalso. induction keys as [|k' keys IH']; [done|]. by apply IH'.
  - by eapply IH.
  - eapply IH; [exact Hfold|]. rewrite lookup_insert_ne; [done|]. by intros ->; simplify_eq.
Qed.

(** X10 — A successful [write_file], with or without [create_parents],
    keeps every other entry of the file system: what was at any path other
    than the one written is still there, unchanged. *)
Theorem write_file_keeps_other_entries (args : obj) (p s resolved : string)
    (parents : bool) (w w1 : world) (result : ToolResult) (key : list string) (node : inode) :
  write_args args p s parents →
  resolvePath cwd this p = inr resolved →
  handleWriteFile cwd this args w = (inr result, w1) →
  key ≠ Path.components resolved →
  files w !! key = Some node →
  files w1 !! key = Some node.
Proof.
  intros Hargs Hres Hrun Hne Hkey. rewrite (handleWriteFile_checked _ _ _ _ _ Hargs) in Hrun.
  unfold bind at 1, lift in Hrun. rewrite Hres in Hrun.
  unfold bind at 1 in Hrun.
  destruct (if parents then _ else _) as [[e|[]] wm] eqn:Hmk; [done|].
  assert (files wm !! key = Some node) as Hm.
  { destruct parents.
    - unfold Fs.mkdir_recursive, bind, log_io, throw in Hmk. cbn [files io_log] in Hmk.
      destruct (foldl _ _ _) as [e|fs'] eqn:Hfold; [done|].
      injection Hmk as <-. cbn [files]. by eapply mkdir_steps_preserve.
    - unfold ret in Hmk. by injection Hmk as <-. }
  unfold try_catch, Fs.writeFile, bind, log_io, ret, throw in Hrun. cbn [files io_log] in Hrun.
  repeat case_match; simplify_eq; cbn [files]; by rewrite lookup_insert_ne.
Qed.




(** X13 — An empty prompt never reaches the model: with a client
    configured, [call_gemini] on the prompt [""] fails with an
    [MCPServerError] and makes no call, whatever the other arguments are. *)
Theorem call_gemini_empty_prompt (client : GeminiClient) (args : obj) (w : world) :
  gemini this = Some client →
  get args "prompt" = Some (JStr "") →
  ∃ message, handleCallGemini this args w = (inl (MCPServerError message), w).
Proof.
  intros Hclient Hprompt. unfold handleCallGemini, generate. rewrite Hclient, Hprompt.
  cbn [typeof truthy]. rewrite (bool_decide_eq_false_2 ("string" ≠ "string")) by (by intros ?).
  do 3 (case_bool_decide; [by eexists|]).
  case_bool_decide; [done|]. by eexists.
Qed.

(** X14 — With a client configured, arguments that conform to the input
    schema and a prompt that is not empty, [call_gemini] sends exactly one
    request, whose last content is the prompt in the role [user] and which
    has a [generationConfig] exactly when a temperature or a [top_p] was
    given; the reply decides the outcome: a thrown error or a reply without
    text becomes "Gemini call failed: ...", a text is returned as it is. *)
Theorem call_gemini_outcomes (client : GeminiClient) (args : obj) (prompt : string)
    (w : world) :
  gemini this = Some client →
  (∀ field, ¬ offending (call_gemini_tool this) args field) →
  get args "prompt" = Some (JStr prompt) →
  prompt ≠ "" →
  ∃ request contents,
    prop request "contents" = Some (JArr contents)
    ∧ last contents = Some (text_part "user" (JStr prompt))
    ∧ (is_Some (prop request "generationConfig")
       ↔ is_Some (get args "temperature") ∨ is_Some (get args "top_p"))
    ∧ handleCallGemini this args w
      = (gemini_outcome (generateContent client request),
         World (files w) (io_log w ++ [NetGenerate request])).
Proof.
  intros Hclient Hargs Hprompt Hne.
  assert (∀ field ty v, declared_type (call_gemini_tool this) field = Some ty →
                        get args field = Some v → typeof (Some v) = ty) as Hty.
  { intros field ty v Hd Hv. destruct (decide (typeof (Some v) = ty)) as [|Hbad]; [done|].
    destruct (Hargs field). by eapply offending_present. }
  unfold handleCallGemini, generate. rewrite Hclient, Hprompt.
  cbn [typeof truthy the_value default].
  rewrite !(bool_decide_eq_false_2 ("string" ≠ "string")) by (by intros ?).
  rewrite (bool_decide_eq_true_2 (prompt ≠ "")) by done. cbn [negb orb].
  rewrite bool_decide_eq_false_2; last first.
  { intros [Hsome Hbad]. destruct (get args "system_prompt") as [v|] eqn:Hv; [|done].
    by apply Hbad, (Hty "system_prompt" "string" v). }
  rewrite bool_decide_eq_false_2; last first.
  { intros [Hsome Hbad]. destruct (get args "temperature") as [v|] eqn:Hv; [|done].
    by apply Hbad, (Hty "temperature" "number" v). }
  rewrite bool_decide_eq_false_2; last first.
  { intros [Hsome Hbad]. destruct (get args "top_p") as [v|] eqn:Hv; [|done].
    by apply Hbad, (Hty "top_p" "number" v). }
  match goal with
  | |- context [log_io (NetGenerate ?r)] => set (request := r)
  end.
  exists request. eexists. split; [reflexivity|]. split; [by rewrite last_snoc|]. split.
  - subst request. cbn [prop get].
    destruct (get args "temperature") as [t|] eqn:Ht.
    + rewrite (Hty "temperature" "number" t) by done.
      rewrite (bool_decide_eq_true_2 ("number" = "number")) by done.
      split; [intros _; left; by exists t|]. intros _. simpl. by eexists.
    + cbn [typeof]. rewrite (bool_decide_eq_false_2 ("undefined" = "number")) by done.
      destruct (get args "top_p") as [p|] eqn:Hp.
      * rewrite (Hty "top_p" "number" p) by done.
        rewrite (bool_decide_eq_true_2 ("number" = "number")) by done.
        split; [intros _; right; by exists p|]. intros _. simpl. by eexists.
      * cbn [typeof]. rewrite (bool_decide_eq_false_2 ("undefined" = "number")) by done.
        simpl. split; [by intros [? ?]|]. by intros [[? ?]|[? ?]].
  - clearbody request. unfold bind, try_catch, log_io, throw, ret, gemini_outcome.
    destruct (generateContent client request) as [message|[t|]]; [done| |done].
    cbn [truthy fmap option_fmap option_map default].
    destruct (decide (t = "")) as [->|Ht]; [done|].
    by rewrite bool_decide_eq_true_2, bool_decide_eq_false_2.
Qed.

(** X15 — On a server built by the constructor, [call_gemini] answers "not
    configured" exactly when the API key was empty or the client could not
    be built. *)
Theorem call_gemini_needs_key_and_client (rootArg : string) (debugArg : bool)
    (key : string) (connect : option GeminiClient) (args : obj) (w : world) :
  handleCallGemini (new_LocalMCPServer cwd rootArg debugArg key connect) args w
  = (inl (MCPServerError not_configured_message), w)
  ↔ key = "" ∨ connect = None.
Proof.
  unfold handleCallGemini, new_LocalMCPServer. cbn [gemini]. split.
  - case_bool_decide as Hkey; [by left|]. destruct connect as [client|]; [|by right].
    intros Hrun. exfalso. revert Hrun.
    do 4 (case_bool_decide; [by intros [=]|]).
    unfold generate. destruct (negb _ || _); [by intros [=]|].
    unfold bind, try_catch, log_io, throw, ret.
    destruct (generateContent client _) as [message|reply]; [by intros [=]|].
    by destruct (truthy _).
  - intros [Hkey|Hnone]; subst; [done|]. by case_bool_decide.
Qed.

(** X16 — A server built by the constructor in an absolute working
    directory confines: whatever [resolvePath] returns is an absolute path
    that is the root or lies below it. *)
Theorem constructed_server_confines (rootArg : string) (debugArg : bool) (key : string)
    (connect : option GeminiClient) (userPath resolved : string) :
  Path.isAbsolute cwd = true →
  let server := new_LocalMCPServer cwd rootArg debugArg key connect in
  resolvePath cwd server userPath = inr resolved →
  within (root server) resolved ∧ Path.isAbsolute resolved = true.
Proof.
  intros Hcwd server Hok.
  pose proof (new_LocalMCPServer_root cwd rootArg debugArg key connect Hcwd) as Hroot.
  split.
  - by eapply resolvePath_confined.
  - by destruct (resolvePath_normal cwd server _ _ Hroot Hok) as (R & down & _ & _ & _ & ->).
Qed.

End OutcomeFacts.

(** * More on requests and the session loop *)

Section DispatchFacts.
Variable cwd : string.
Variable localeCompare : string → string → Z.
Variable Number_toString : Z → Z → string.
Variable this : LocalMCPServer.

(** X17 — The tools that [tools/list] advertises are the tools that
    [tools/call] accepts: a name is listed exactly when the registry has
    it. *)
Theorem listed_tools_are_the_callable_ones (id params : JSON) (w : world) (name : string) :
  name ∈ listed_names
           (handleRequest cwd localeCompare Number_toString this id (JStr "tools/list")
              params w).1
  ↔ tools_has cwd localeCompare this (Some (JStr name)) = true.
Proof.
  unfold tools_has, tools_get, tools.
  change (listed_names _) with ["read_file"; "write_file"; "list_dir"; "call_gemini"].
  rewrite bool_decide_eq_true, fmap_is_Some. split.
  - intros Hin. repeat (apply elem_of_cons in Hin as [->|Hin]; [by eexists|]).
    by apply elem_of_nil in Hin.
  - intros [[i [k t]] Hfind]. apply list_find_Some in Hfind as (Hi & Hk & _).
    cbn in Hk. subst k. apply list_elem_of_lookup_2 in Hi.
    repeat (apply elem_of_cons in Hi as [Hi|Hi]; [simplify_eq; set_solver|]).
    by apply elem_of_nil in Hi.
Qed.

(** X18 — [tools/call] of a registered tool with [arguments] that are not
    a plain object (an array, a string, a number, a boolean, [null]) is
    answered with the error -32602, and the handler is not run. *)
Theorem arguments_must_be_a_plain_object (id params v : JSON) (w : world) :
  tools_has cwd localeCompare this (prop params "name") = true →
  prop params "arguments" = Some v →
  (∀ o, v ≠ JObj o) →
  handleRequest cwd localeCompare Number_toString this id (JStr "tools/call") params w
  = (jsonrpcError id (-32602) "arguments must be an object.", w).
Proof.
  intros Hname Hargs Hv. unfold tools_has in Hname. apply bool_decide_eq_true in Hname.
  destruct Hname as [tool Htool].
  unfold handleRequest. cbn [is_method].
  rewrite !bool_decide_eq_false_2 by done. rewrite bool_decide_eq_true_2 by done.
  rewrite Htool, Hargs. cbn [default]. destruct v; try done. by destruct (Hv props).
Qed.

(** X19 — [tools/call] without [arguments] is [tools/call] with the empty
    object for [arguments]. *)
Theorem missing_arguments_are_empty (id params params' : JSON) (w : world) :
  prop params "name" = prop params' "name" →
  prop params "arguments" = None →
  prop params' "arguments" = Some (JObj []) →
  handleRequest cwd localeCompare Number_toString this id (JStr "tools/call") params w
  = handleRequest cwd localeCompare Number_toString this id (JStr "tools/call") params' w.
Proof.
  intros Hname Hnone Hempty. unfold handleRequest. cbn [is_method].
  rewrite !bool_decide_eq_false_2 by done. rewrite bool_decide_eq_true_2 by done.
  by rewrite Hname, Hnone, Hempty.
Qed.

(** X20 — [tools/call] whose [params] are not an object, or are an object
    without a [name], is answered with the error -32601 for the tool
    [undefined]; nothing is run. *)
Theorem params_without_a_name (id params : JSON) (w : world) :
  (∀ o, params ≠ JObj o) ∨ (∃ o, params = JObj o ∧ get o "name" = None) →
  handleRequest cwd localeCompare Number_toString this id (JStr "tools/call") params w
  = (jsonrpcError id (-32601) "Unknown tool 'undefined'.", w).
Proof.
  intros Hparams.
  assert (prop params "name" = None) as Hname.
  { destruct Hparams as [Hno|(o & -> & Hname)]; [|done].
    destruct params; try done. by destruct (Hno props). }
  unfold handleRequest. cbn [is_method].
  rewrite !bool_decide_eq_false_2 by done. rewrite bool_decide_eq_true_2 by done.
  by rewrite Hname.
Qed.

End DispatchFacts.

Section LoopFacts.
Variable cwd : string.
Variable JSON_parse : string → option JSON.
Variable trim : string → string.
Variable localeCompare : string → string → Z.
Variable Number_toString : Z → Z → string.
Variable this : LocalMCPServer.

(** A line leaves the world alone or hands a request to [handleRequest]. *)
Lemma handleLine_world (rawLine : string) (w : world) :
  (handleLine cwd JSON_parse trim localeCompare Number_toString this rawLine w).2 = w
  ∨ ∃ id method params,
      (handleLine cwd JSON_parse trim localeCompare Number_toString this rawLine w).2
      = (handleRequest cwd localeCompare Number_toString this id method params w).2.
Proof.
  unfold handleLine. case_bool_decide; [by left|].
  destruct (JSON_parse (trim rawLine)) as [[| | | | |message]|]; try by left.
  destruct (get message "method") as [method|]; [|by left].
  destruct (get message "id") as [id|]; [|by left].
  right. exists id, method, (default (JObj []) (get message "params")).
  by destruct (handleRequest _ _ _ _ _ _ _ _).
Qed.

(** X21 — Blank lines are skipped: a session runs as it would with the
    lines that are empty once trimmed taken out. *)
Theorem blank_lines_are_skipped (lines : list string) (w : world) :
  run cwd JSON_parse trim localeCompare Number_toString this lines w
  = run cwd JSON_parse trim localeCompare Number_toString this
      (filter (λ rawLine, trim rawLine ≠ "") lines) w.
Proof.
  revert w. induction lines as [|rawLine rest IH]; intros w; [done|].
  destruct (decide (trim rawLine = "")) as [Hblank|Hline].
  - rewrite filter_cons_False by (by intros ?). cbn [run].
    unfold handleLine. rewrite bool_decide_eq_true_2 by done.
    rewrite <- IH. by destruct (run _ _ _ _ _ _ rest w).
  - rewrite filter_cons_True by done. cbn [run].
    destruct (handleLine _ _ _ _ _ _ rawLine w) as [[sent []] w']; [|done]. by rewrite IH.
Qed.



(** X24 — Over a whole session every call to the file system stays where
    the server may reach: the calls are appended to the log in order, and
    each names the root or a path below it ([mkdir] possibly the directory
    that holds the root). *)
Theorem session_stays_within_root (lines : list string) (w : world) :
  normalized_absolute (root this) →
  ∃ new,
    io_log (run cwd JSON_parse trim localeCompare Number_toString this lines w).2
    = io_log w ++ new
    ∧ Forall (reach (root this)) new.
Proof.
  intros Hroot. revert w. induction lines as [|rawLine rest IH]; intros w.
  - exists []. by rewrite app_nil_r.
  - cbn [run].
    assert (∃ new,
              io_log (handleLine cwd JSON_parse trim localeCompare Number_toString this
                        rawLine w).2 = io_log w ++ new
              ∧ Forall (reach (root this)) new) as (new & Hnew & Hreach).
    { destruct (handleLine_world rawLine w) as [->|(id & method & params & ->)].
      - exists []. by rewrite app_nil_r.
      - by apply handleRequest_log. }
    destruct (handleLine _ _ _ _ _ _ rawLine w) as [[sent ctl] w']. cbn [snd] in Hnew.
    destruct ctl; [|by exists new].
    destruct (IH w') as (new' & Hnew' & Hreach').
    destruct (run _ _ _ _ _ _ rest w') as [later w'']. cbn [snd] in *.
    exists (new ++ new'). rewrite Hnew', Hnew, app_assoc. split; [done|].
    by apply Forall_app.
Qed.

(** X25 — A session in which no line is a [tools/call] leaves the world
    exactly as it found it: no file is touched and no call is made. *)
Theorem session_without_tool_calls (lines : list string) (w : world) :
  (∀ rawLine message, rawLine ∈ lines →
     JSON_parse (trim rawLine) = Some (JObj message) →
     get message "method" ≠ Some (JStr "tools/call")) →
  (run cwd JSON_parse trim localeCompare Number_toString this lines w).2 = w.
Proof.
  intros Hlines. revert w. induction lines as [|rawLine rest IH]; intros w; [done|].
  cbn [run].
  assert ((handleLine cwd JSON_parse trim localeCompare Number_toString this rawLine w).2
          = w) as Hsame.
  { unfold handleLine. case_bool_decide; [done|].
    destruct (JSON_parse (trim rawLine)) as [[| | | | |message]|] eqn:Hparse; try done.
    destruct (get message "method") as [method|] eqn:Hmethod; [|done].
    destruct (get message "id") as [id|]; [|done].
    pose proof (handleRequest_no_effect cwd localeCompare Number_toString this
                  id method (default (JObj []) (get message "params")) w) as Hw.
    destruct (handleRequest _ _ _ _ _ _ _ _) as [response w']. cbn [snd] in *.
    apply Hw. intros ->. eapply Hlines; [|done..]. set_solver. }
  destruct (handleLine _ _ _ _ _ _ rawLine w) as [[sent ctl] w']. cbn [snd] in Hsame.
  subst w'. destruct ctl; [|done].
  specialize (IH ltac:(intros ???; apply Hlines; set_solver) w).
  by destruct (run _ _ _ _ _ _ rest w).
Qed.

End LoopFacts.

(** * The model at work

    The theorems above, applied to the sample server on [/sandbox]. *)





(** [tools/call] of [read_file] on a file that is not there. *)
Lemma tools_call_reports_handler_outcome_witness :
  tools_get "/home/dev" byte_compare sample_server (prop read_missing_params "name")
  = Some (read_file_tool "/home/dev" sample_server)
  ∧ default (JObj []) (prop read_missing_params "arguments") = JObj read_missing_args
  ∧ is_success (sample_request (JInt 1) (JStr "tools/call") read_missing_params).1
  ∧ sample_request (JInt 1) (JStr "tools/call") read_missing_params
    = (jsonrpcResult (JInt 1) (toolEnvelope "File not found: missing.txt" true),
       World sample_files [FsReadFile "/sandbox/missing.txt"]).
Proof.
  assert (tools_get "/home/dev" byte_compare sample_server (prop read_missing_params "name")
          = Some (read_file_tool "/home/dev" sample_server)) as h1 by reflexivity.
  assert (default (JObj []) (prop read_missing_params "arguments") = JObj read_missing_args)
    as h2 by reflexivity.
  split_and!; [exact h1|exact h2|..];
    destruct (tools_call_reports_handler_outcome "/home/dev" byte_compare
                sample_Number_toString sample_server (JInt 1) read_missing_params
                (read_file_tool "/home/dev" sample_server) read_missing_args
                sample_world h1 h2) as [Hsuccess Hcases].
  - exact Hsuccess.
  - exact Hcases.
Defined.

(** [write_file] with a number for [path]. *)
Lemma ill_typed_arguments_rejected_witness :
  tools_get "/home/dev" byte_compare sample_server (Some (JStr "write_file"))
  = Some (write_file_tool "/home/dev" sample_server)
  ∧ wrong_type (write_file_tool "/home/dev" sample_server) numeric_path_args "path"
  ∧ ("write_file" = "list_dir" → get numeric_path_args "path" ≠ Some JNull)
  ∧ ∃ message,
      handleWriteFile "/home/dev" sample_server numeric_path_args sample_world
      = (inl (MCPServerError message), sample_world)
      ∧ (("write_file" = "call_gemini" ∧ gemini sample_server = None
          ∧ message = not_configured_message)
         ∨ ∃ f, offending (write_file_tool "/home/dev" sample_server) numeric_path_args f
                ∧ names_field message f).
Proof.
  assert (tools_get "/home/dev" byte_compare sample_server (Some (JStr "write_file"))
          = Some (write_file_tool "/home/dev" sample_server)) as h1 by reflexivity.
  assert (wrong_type (write_file_tool "/home/dev" sample_server) numeric_path_args "path")
    as h2.
  { exists "string", (JInt 5). split_and!; [reflexivity|reflexivity|discriminate]. }
  assert ("write_file" = "list_dir" → get numeric_path_args "path" ≠ Some JNull)
    as h3 by discriminate.
  split_and!; [exact h1|exact h2|exact h3|].
  exact (ill_typed_arguments_rejected "/home/dev" byte_compare sample_server
           "write_file" (write_file_tool "/home/dev" sample_server) numeric_path_args
           "path" sample_world h1 h2 h3).
Defined.

(** C4 as it is stated fails for [list_dir]: [null] is not a string, yet a
    [null] path is taken for the default ["."] and the root is listed. *)
Lemma list_dir_accepts_null_path :
  tools_get "/home/dev" byte_compare sample_server (Some (JStr "list_dir"))
  = Some (list_dir_tool "/home/dev" byte_compare sample_server)
  ∧ wrong_type (list_dir_tool "/home/dev" byte_compare sample_server) null_path_args "path"
  ∧ handleListDir "/home/dev" byte_compare sample_server null_path_args sample_world
    = (inr {| text := "a/" +:+ newline +:+ "b.txt"; isError := None |},
       World sample_files [FsReaddir "/sandbox"])
  ∧ ¬ rejects_before_effects
        (list_dir_tool "/home/dev" byte_compare sample_server) null_path_args sample_world.
Proof.
  split_and!; [reflexivity| |reflexivity|].
  - exists "string", JNull. split_and!; [reflexivity|reflexivity|discriminate].
  - intros (message & field & _ & _ & Hthrows). vm_compute in Hthrows. discriminate Hthrows.
Qed.


(** The line [not json], followed by a ping. *)
Lemma parse_failure_answered_and_session_continues_witness :
  sample_trim "not json" ≠ ""
  ∧ sample_parse (sample_trim "not json") = None
  ∧ sample_session ["not json"; ping_line]
    = (parseErrorResponse :: (sample_session [ping_line]).1, (sample_session [ping_line]).2)
  ∧ response_id parseErrorResponse = Some JNull
  ∧ is_protocol_error parseErrorResponse (-32700).
Proof.
  assert (sample_trim "not json" ≠ "") as h1 by (vm_compute; discriminate).
  assert (sample_parse (sample_trim "not json") = None) as h2 by reflexivity.
  split_and!; [exact h1|exact h2|..];
    destruct (parse_failure_answered_and_session_continues "/home/dev" sample_parse
                sample_trim byte_compare sample_Number_toString sample_server
                "not json" [ping_line] sample_world h1 h2) as (Hrun & Hid & Hcode).
  - exact Hrun.
  - exact Hid.
  - exact Hcode.
Defined.

(** [write_file] aimed at [/etc/passwd] through [..]. *)
Lemma write_file_rejects_without_effect_witness :
  normalized_absolute (root sample_server)
  ∧ (∃ p, get escaping_write_args "path" = Some (JStr p)
          ∧ ¬ within (root sample_server) (Path.resolve "/home/dev" [root sample_server; p]))
  ∧ ∃ message,
      handleWriteFile "/home/dev" sample_server escaping_write_args sample_world
      = (inl (MCPServerError message), sample_world).
Proof.
  assert (normalized_absolute (root sample_server)) as h1 by reflexivity.
  assert (∃ p, get escaping_write_args "path" = Some (JStr p)
               ∧ ¬ within (root sample_server)
                     (Path.resolve "/home/dev" [root sample_server; p])) as h2.
  { exists "../etc/passwd". split; [reflexivity|].
    apply (bool_decide_eq_false_1 _). reflexivity. }
  split_and!; [exact h1|exact h2|].
  apply (write_file_rejects_without_effect "/home/dev" sample_server escaping_write_args
           sample_world h1).
  right. right. right. exact h2.
Defined.




(** Reading [../../etc/passwd] from [/sandbox]: turned down, and the file
    system is not asked. *)
Example read_outside_root :
  handleReadFile "/home/dev" sample_server [("path", JStr "../../etc/passwd")] sample_world
  = (inl (outside_root_error "../../etc/passwd"), sample_world).
Proof. reflexivity. Qed.

(** Writing [a/b.txt] with [create_parents] into an empty [/sandbox]: the
    directory [a] is made and the file holds the content. *)
Example write_with_parents :
  handleWriteFile "/home/dev" sample_server
    [("path", JStr "a/b.txt"); ("content", JStr "hi"); ("create_parents", JBool true)]
    (World (list_to_map [([], Directory); (["sandbox"], Directory)]) [])
  = (inr {| text := "Wrote a/b.txt"; isError := None |},
     World (list_to_map [([], Directory); (["sandbox"], Directory);
                         (["sandbox"; "a"], Directory);
                         (["sandbox"; "a"; "b.txt"], RegularFile "hi")])
           [FsMkdir "/sandbox/a"; FsWriteFile "/sandbox/a/b.txt" "hi"]).
Proof. vm_compute. reflexivity. Qed.

(** The same without [create_parents]: the directory is missing. *)
Example write_without_parents :
  (handleWriteFile "/home/dev" sample_server
     [("path", JStr "a/b.txt"); ("content", JStr "hi")]
     (World (list_to_map [([], Directory); (["sandbox"], Directory)]) [])).1
  = inl (MCPServerError
           "Failed to write file a/b.txt: ENOENT: no such file or directory, open '/sandbox/a/b.txt'").
Proof. reflexivity. Qed.

(** [call_gemini] on a server without a client: a successful response that
    carries the failure. *)
Example call_gemini_not_configured :
  sample_request (JInt 2) (JStr "tools/call")
    (JObj [("name", JStr "call_gemini"); ("arguments", JObj [("prompt", JStr "x")])])
  = (jsonrpcResult (JInt 2) (toolEnvelope not_configured_message true), sample_world).
Proof. reflexivity. Qed.

(** [call_gemini] with a client: the request that goes out and the text
    that comes back. *)
Example call_gemini_configured :
  handleCallGemini sample_server_with_gemini
    [("prompt", JStr "a tree"); ("temperature", JNum 7 (-1))] sample_world
  = (inr {| text := "a sprite"; isError := None |},
     World sample_files
       [NetGenerate
          (JObj [("contents", JArr [text_part "user" (JStr "a tree")]);
                 ("generationConfig", JObj [("temperature", JNum 7 (-1))])])]).
Proof. reflexivity. Qed.

(** [tools/call] with an array for [arguments]. *)
Example arguments_must_be_an_object :
  sample_request (JInt 3) (JStr "tools/call")
    (JObj [("name", JStr "list_dir"); ("arguments", JArr [])])
  = (jsonrpcError (JInt 3) (-32602) "arguments must be an object.", sample_world).
Proof. reflexivity. Qed.

(** A session: a ping, a line that is not JSON, a stray reply, a ping with
    the id [null], [exit], and a ping that is never read. *)
Example session_ids :
  response_id
    <$> (run "/home/dev" sample_parse sample_trim byte_compare sample_Number_toString
           sample_server
           [ping_line; "not json"; reply_line; "  "; null_id_line; exit_line; ping_line]
           sample_world).1
  = [Some (JInt 7); Some JNull; Some JNull].
Proof. reflexivity. Qed.

(** [write_file] on the root itself with [create_parents] asks the file
    system for the directory that holds the root. *)
Remark write_file_on_root_reaches_parent :
  io_log (handleWriteFile "/home/dev" sample_server
            [("path", JStr "."); ("content", JStr "x"); ("create_parents", JBool true)]
            sample_world).2
  = [FsMkdir "/"; FsWriteFile "/sandbox" "x"]
  ∧ ¬ within (root sample_server) "/".
Proof.
  split; [reflexivity|]. apply (bool_decide_eq_false_1 _). reflexivity.
Qed.

(** ** The further properties at work *)

(** [a/c.txt] below [/sandbox]. *)
Lemma resolvePath_accepts_exactly_witness :
  normalized_absolute (root sample_server)
  ∧ resolvePath "/home/dev" sample_server "a/c.txt" = inr "/sandbox/a/c.txt".
Proof.
  assert (normalized_absolute (root sample_server)) as h1 by reflexivity.
  split; [exact h1|].
  apply (proj1 (resolvePath_accepts_exactly "/home/dev" sample_server "a/c.txt" h1)).
  split; [|reflexivity]. apply (bool_decide_eq_true_1 _). reflexivity.
Defined.

(** [a/../b.txt] resolves to [/sandbox/b.txt], which resolves to itself. *)
Lemma resolvePath_idempotent_witness :
  normalized_absolute (root sample_server)
  ∧ resolvePath "/home/dev" sample_server "a/../b.txt" = inr "/sandbox/b.txt"
  ∧ resolvePath "/home/dev" sample_server "/sandbox/b.txt" = inr "/sandbox/b.txt".
Proof.
  assert (normalized_absolute (root sample_server)) as h1 by reflexivity.
  assert (resolvePath "/home/dev" sample_server "a/../b.txt" = inr "/sandbox/b.txt") as h2
    by reflexivity.
  split_and!; [exact h1|exact h2|].
  exact (resolvePath_idempotent "/home/dev" sample_server "a/../b.txt" "/sandbox/b.txt"
           h1 h2).
Defined.

Lemma resolvePath_empty_and_dot_witness :
  normalized_absolute (root sample_server)
  ∧ resolvePath "/home/dev" sample_server "" = inr "/sandbox"
  ∧ resolvePath "/home/dev" sample_server "." = inr "/sandbox".
Proof.
  assert (normalized_absolute (root sample_server)) as h1 by reflexivity.
  split; [exact h1|].
  exact (resolvePath_empty_and_dot "/home/dev" sample_server h1).
Defined.


(** [read_file] of a missing file. *)
Lemma only_write_file_changes_files_witness :
  prop read_missing_params "name" ≠ Some (JStr "write_file")
  ∧ files (sample_request (JInt 1) (JStr "tools/call") read_missing_params).2
    = files sample_world.
Proof.
  assert (prop read_missing_params "name" ≠ Some (JStr "write_file")) as h1
    by discriminate.
  split; [exact h1|].
  exact (only_write_file_changes_files "/home/dev" byte_compare sample_Number_toString
           sample_server (JInt 1) (JStr "tools/call") read_missing_params sample_world h1).
Defined.



(** The root listed, and listed again. *)
Lemma list_dir_twice_witness :
  handleListDir "/home/dev" byte_compare sample_server [("path", JStr ".")] sample_world
  = (inr {| text := "a/" +:+ newline +:+ "b.txt"; isError := None |},
     World sample_files [FsReaddir "/sandbox"])
  ∧ (handleListDir "/home/dev" byte_compare sample_server [("path", JStr ".")]
       (World sample_files [FsReaddir "/sandbox"])).1
    = inr {| text := "a/" +:+ newline +:+ "b.txt"; isError := None |}.
Proof.
  assert (handleListDir "/home/dev" byte_compare sample_server [("path", JStr ".")]
            sample_world
          = (inr {| text := "a/" +:+ newline +:+ "b.txt"; isError := None |},
             World sample_files [FsReaddir "/sandbox"])) as h1 by reflexivity.
  split; [exact h1|].
  exact (list_dir_twice "/home/dev" byte_compare sample_server [("path", JStr ".")]
           sample_world (World sample_files [FsReaddir "/sandbox"])
           (inr {| text := "a/" +:+ newline +:+ "b.txt"; isError := None |}) h1).
Defined.


(** [b.txt] is still there once [notes.txt] has been written. *)
Lemma write_file_keeps_other_entries_witness :
  write_args notes_write_args "notes.txt" "level 1: forest" false
  ∧ resolvePath "/home/dev" sample_server "notes.txt" = inr "/sandbox/notes.txt"
  ∧ handleWriteFile "/home/dev" sample_server notes_write_args sample_world
    = (inr {| text := "Wrote notes.txt"; isError := None |}, world_with_notes)
  ∧ ["sandbox"; "b.txt"] ≠ Path.components "/sandbox/notes.txt"
  ∧ files sample_world !! ["sandbox"; "b.txt"] = Some (RegularFile "hello")
  ∧ files world_with_notes !! ["sandbox"; "b.txt"] = Some (RegularFile "hello").
Proof.
  assert (write_args notes_write_args "notes.txt" "level 1: forest" false) as h1
    by (split_and!; reflexivity).
  assert (resolvePath "/home/dev" sample_server "notes.txt" = inr "/sandbox/notes.txt")
    as h2 by reflexivity.
  assert (handleWriteFile "/home/dev" sample_server notes_write_args sample_world
          = (inr {| text := "Wrote notes.txt"; isError := None |}, world_with_notes))
    as h3 by (vm_compute; reflexivity).
  assert (["sandbox"; "b.txt"] ≠ Path.components "/sandbox/notes.txt") as h4
    by (vm_compute; discriminate).
  assert (files sample_world !! ["sandbox"; "b.txt"] = Some (RegularFile "hello")) as h5
    by reflexivity.
  split_and!; [exact h1|exact h2|exact h3|exact h4|exact h5|].
  exact (write_file_keeps_other_entries "/home/dev" sample_server notes_write_args
           "notes.txt" "level 1: forest" "/sandbox/notes.txt" false sample_world
           world_with_notes {| text := "Wrote notes.txt"; isError := None |}
           ["sandbox"; "b.txt"] (RegularFile "hello") h1 h2 h3 h4 h5).
Defined.



(** The empty prompt, with a temperature. *)
Lemma call_gemini_empty_prompt_witness :
  gemini sample_server_with_gemini = Some canned_client
  ∧ get [("prompt", JStr ""); ("temperature", JNum 7 (-1))] "prompt" = Some (JStr "")
  ∧ ∃ message,
      handleCallGemini sample_server_with_gemini
        [("prompt", JStr ""); ("temperature", JNum 7 (-1))] sample_world
      = (inl (MCPServerError message), sample_world).
Proof.
  assert (gemini sample_server_with_gemini = Some canned_client) as h1 by reflexivity.
  assert (get [("prompt", JStr ""); ("temperature", JNum 7 (-1))] "prompt"
          = Some (JStr "")) as h2 by reflexivity.
  split_and!; [exact h1|exact h2|].
  exact (call_gemini_empty_prompt sample_server_with_gemini canned_client
           [("prompt", JStr ""); ("temperature", JNum 7 (-1))] sample_world h1 h2).
Defined.

(** The prompt [a tree] at the temperature 0.7. *)
Lemma call_gemini_outcomes_witness :
  gemini sample_server_with_gemini = Some canned_client
  ∧ (∀ field, ¬ offending (call_gemini_tool sample_server_with_gemini)
                  tree_prompt_args field)
  ∧ get tree_prompt_args "prompt" = Some (JStr "a tree")
  ∧ "a tree" ≠ ""
  ∧ ∃ request contents,
      prop request "contents" = Some (JArr contents)
      ∧ last contents = Some (text_part "user" (JStr "a tree"))
      ∧ (is_Some (prop request "generationConfig")
         ↔ is_Some (get tree_prompt_args "temperature")
           ∨ is_Some (get tree_prompt_args "top_p"))
      ∧ handleCallGemini sample_server_with_gemini tree_prompt_args sample_world
        = (gemini_outcome (generateContent canned_client request),
           World (files sample_world) (io_log sample_world ++ [NetGenerate request])).
Proof.
  assert (gemini sample_server_with_gemini = Some canned_client) as h1 by reflexivity.
  assert (∀ field, ¬ offending (call_gemini_tool sample_server_with_gemini)
                       tree_prompt_args field) as h2.
  { intros field (ty & Hd & Hbad).
    apply (declared_call_gemini byte_compare) in Hd as [[-> ->]|[[-> ->]|[[-> ->]|[-> ->]]]];
      vm_compute in Hbad; first [by apply Hbad | discriminate Hbad]. }
  assert (get tree_prompt_args "prompt" = Some (JStr "a tree")) as h3 by reflexivity.
  assert ("a tree" ≠ "") as h4 by discriminate.
  split_and!; [exact h1|exact h2|exact h3|exact h4|].
  exact (call_gemini_outcomes sample_server_with_gemini canned_client tree_prompt_args
           "a tree" sample_world h1 h2 h3 h4).
Defined.

(** The constructor in [/home/dev] with the root [/sandbox]. *)
Lemma constructed_server_confines_witness :
  Path.isAbsolute "/home/dev" = true
  ∧ resolvePath "/home/dev" (new_LocalMCPServer "/home/dev" "/sandbox" false "" None)
      "a/c.txt" = inr "/sandbox/a/c.txt"
  ∧ within (root (new_LocalMCPServer "/home/dev" "/sandbox" false "" None))
      "/sandbox/a/c.txt"
  ∧ Path.isAbsolute "/sandbox/a/c.txt" = true.
Proof.
  assert (Path.isAbsolute "/home/dev" = true) as h1 by reflexivity.
  assert (resolvePath "/home/dev" (new_LocalMCPServer "/home/dev" "/sandbox" false "" None)
            "a/c.txt" = inr "/sandbox/a/c.txt") as h2 by reflexivity.
  split_and!; [exact h1|exact h2|..];
    destruct (constructed_server_confines "/home/dev" "/sandbox" false "" None
                "a/c.txt" "/sandbox/a/c.txt" h1 h2) as [Hin Habs].
  - exact Hin.
  - exact Habs.
Defined.

(** [list_dir] with an array for [arguments]. *)
Lemma arguments_must_be_a_plain_object_witness :
  tools_has "/home/dev" byte_compare sample_server (prop list_dir_array_params "name")
  = true
  ∧ prop list_dir_array_params "arguments" = Some (JArr [])
  ∧ (∀ o, JArr [] ≠ JObj o)
  ∧ sample_request (JInt 3) (JStr "tools/call") list_dir_array_params
    = (jsonrpcError (JInt 3) (-32602) "arguments must be an object.", sample_world).
Proof.
  assert (tools_has "/home/dev" byte_compare sample_server
            (prop list_dir_array_params "name") = true) as h1 by reflexivity.
  assert (prop list_dir_array_params "arguments" = Some (JArr [])) as h2 by reflexivity.
  assert (∀ o, JArr [] ≠ JObj o) as h3 by discriminate.
  split_and!; [exact h1|exact h2|exact h3|].
  exact (arguments_must_be_a_plain_object "/home/dev" byte_compare sample_Number_toString
           sample_server (JInt 3) list_dir_array_params (JArr []) sample_world h1 h2 h3).
Defined.

(** [list_dir] without [arguments] and with the empty object. *)
Lemma missing_arguments_are_empty_witness :
  prop list_dir_params "name" = prop list_dir_empty_params "name"
  ∧ prop list_dir_params "arguments" = None
  ∧ prop list_dir_empty_params "arguments" = Some (JObj [])
  ∧ sample_request (JInt 5) (JStr "tools/call") list_dir_params
    = sample_request (JInt 5) (JStr "tools/call") list_dir_empty_params.
Proof.
  assert (prop list_dir_params "name" = prop list_dir_empty_params "name") as h1
    by reflexivity.
  assert (prop list_dir_params "arguments" = None) as h2 by reflexivity.
  assert (prop list_dir_empty_params "arguments" = Some (JObj [])) as h3 by reflexivity.
  split_and!; [exact h1|exact h2|exact h3|].
  exact (missing_arguments_are_empty "/home/dev" byte_compare sample_Number_toString
           sample_server (JInt 5) list_dir_params list_dir_empty_params sample_world
           h1 h2 h3).
Defined.

(** [tools/call] with a string for [params]. *)
Lemma params_without_a_name_witness :
  ((∀ o, JStr "read_file" ≠ JObj o)
   ∨ (∃ o, JStr "read_file" = JObj o ∧ get o "name" = None))
  ∧ sample_request (JInt 6) (JStr "tools/call") (JStr "read_file")
    = (jsonrpcError (JInt 6) (-32601) "Unknown tool 'undefined'.", sample_world).
Proof.
  assert ((∀ o, JStr "read_file" ≠ JObj o)
          ∨ (∃ o, JStr "read_file" = JObj o ∧ get o "name" = None)) as h1
    by (left; discriminate).
  split; [exact h1|].
  exact (params_without_a_name "/home/dev" byte_compare sample_Number_toString
           sample_server (JInt 6) (JStr "read_file") sample_world h1).
Defined.

(** A session that writes [notes.txt] and pings. *)
Lemma session_stays_within_root_witness :
  normalized_absolute (root sample_server)
  ∧ ∃ new,
      io_log (run "/home/dev" tools_parse sample_trim byte_compare sample_Number_toString
                sample_server [write_line; ping_line] sample_world).2
      = io_log sample_world ++ new
      ∧ Forall (reach (root sample_server)) new.
Proof.
  assert (normalized_absolute (root sample_server)) as h1 by reflexivity.
  split; [exact h1|].
  exact (session_stays_within_root "/home/dev" tools_parse sample_trim byte_compare
           sample_Number_toString sample_server [write_line; ping_line] sample_world h1).
Defined.

(** A ping, a line that is not JSON, and [exit]. *)
Lemma session_without_tool_calls_witness :
  (∀ rawLine message, rawLine ∈ [ping_line; "not json"; exit_line] →
     sample_parse (sample_trim rawLine) = Some (JObj message) →
     get message "method" ≠ Some (JStr "tools/call"))
  ∧ (sample_session [ping_line; "not json"; exit_line]).2 = sample_world.
Proof.
  assert (∀ rawLine message, rawLine ∈ [ping_line; "not json"; exit_line] →
            sample_parse (sample_trim rawLine) = Some (JObj message) →
            get message "method" ≠ Some (JStr "tools/call")) as h1.
  { intros rawLine message Hin Hparse.
    repeat (apply elem_of_cons in Hin as [->|Hin];
            [vm_compute in Hparse;
             first [discriminate Hparse
                   |injection Hparse as <-; vm_compute; discriminate]|]).
    by apply elem_of_nil in Hin. }
  split; [exact h1|].
  exact (session_without_tool_calls "/home/dev" sample_parse sample_trim byte_compare
           sample_Number_toString sample_server [ping_line; "not json"; exit_line]
           sample_world h1).
Defined.
